(** * Insurance plan comparison app: the query and response pipeline of app.py

    A shallow embedding of [src/app.py]: the plan store ([load_data]), the
    prompt builder and remote call ([run_jamba_query]) and the block run by
    the "Compare Plans" button (response parsing, field extraction and the
    Markdown escaping pass), with the parts of Python the code leans on
    ([str.replace], [str.join], [dict], [os.path], [json], [repr]). *)

From Stdlib Require Import List NArith ZArith Lia Bool String Ascii.
From Stdlib Require Decimal DecimalN DecimalFacts.
Import ListNotations.

Set Implicit Arguments.
Open Scope N_scope.
Open Scope list_scope.

(** ** Python strings

    A Python [str] is a sequence of Unicode code points; a code point is
    modelled by its number. *)

Abbreviation char := N (only parsing).
Abbreviation str := (list N) (only parsing).

(** The code points of an (ASCII) literal of the source. *)
Definition lit (s : string) : str := map N_of_ascii (list_ascii_of_string s).

Definition dquote : char := 34.
Definition squote : char := 39.
Definition backslash : char := 92.

Fixpoint str_eqb (a b : str) : bool :=
  match a, b with
  | [], [] => true
  | x :: a', y :: b' => (x =? y) && str_eqb a' b'
  | _, _ => false
  end.

(** [s.startswith(p)] *)
Fixpoint startswith (p s : str) : bool :=
  match p, s with
  | [], _ => true
  | a :: p', b :: s' => (a =? b) && startswith p' s'
  | _ :: _, [] => false
  end.

(** [sub in s] for strings: [sub] occurs somewhere in [s]. *)
Fixpoint str_contains (sub s : str) : bool :=
  startswith sub s ||
  match s with
  | [] => false
  | _ :: s' => str_contains sub s'
  end.

(** [s.replace(old, new)]: the occurrences of [old] are found from left to
    right and do not overlap; [skip] counts the characters of a matched
    occurrence still to be passed over. *)
Fixpoint replace_from (old new : str) (skip : nat) (s : str) : str :=
  match s with
  | [] => []
  | c :: s' =>
      match skip with
      | S k => replace_from old new k s'
      | O =>
          if startswith old s
          then new ++ replace_from old new (pred (List.length old)) s'
          else c :: replace_from old new 0 s'
      end
  end.

Definition replace (s old new : str) : str :=
  match old with
  | [] => new ++ flat_map (fun c => c :: new) s
  | _ :: _ => replace_from old new 0 s
  end.

(** [sep.join(parts)] *)
Fixpoint join (sep : str) (parts : list str) : str :=
  match parts with
  | [] => []
  | [p] => p
  | p :: rest => p ++ sep ++ join sep rest
  end.

(** ** The Markdown escaping pass (app.py, lines 135-148) *)

Definition escaped_message (message : str) : str :=
  let m := replace message (lit "$") (lit "\$") in
  let m := replace m (lit "*") (lit "\*") in
  let m := replace m (lit "_") (lit "\_") in
  let m := replace m (lit "[") (lit "\[") in
  let m := replace m (lit "]") (lit "\]") in
  let m := replace m (lit "(") (lit "\(") in
  let m := replace m (lit ")") (lit "\)") in
  let m := replace m (lit "#") (lit "\#") in
  let m := replace m (lit "+") (lit "\+") in
  let m := replace m (lit "-") (lit "\-") in
  let m := replace m (lit ".") (lit "\.") in
  replace m (lit "!") (lit "\!").

(** The escaping pass as the specification words it: the twelve special
    characters, and one backslash put before each occurrence of one. *)
Definition special_chars : str := lit "$*_[]()#+-.!".

Definition is_special (c : char) : bool := existsb (N.eqb c) special_chars.

Definition escape_char_spec (c : char) : str :=
  if is_special c then [backslash; c] else [c].

Definition escape_spec (s : str) : str := flat_map escape_char_spec s.

(** ** dict

    A Python [dict] keeps its keys in insertion order; assigning to a key
    already present keeps its place and replaces its value. *)

Section Dict.

Variable V : Type.

Definition dict := list (str * V).

Fixpoint dict_get (d : dict) (k : str) : option V :=
  match d with
  | [] => None
  | (k', v) :: d' => if str_eqb k' k then Some v else dict_get d' k
  end.

(** [k in d] *)
Definition dict_contains (d : dict) (k : str) : bool :=
  match dict_get d k with Some _ => true | None => false end.

(** [d[k] = v] *)
Fixpoint dict_set (d : dict) (k : str) (v : V) : dict :=
  match d with
  | [] => [(k, v)]
  | (k', v') :: d' =>
      if str_eqb k' k then (k', v) :: d' else (k', v') :: dict_set d' k v
  end.

(** [dict(pairs)] *)
Definition dict_of_pairs (pairs : list (str * V)) : dict :=
  fold_left (fun d kv => dict_set d (fst kv) (snd kv)) pairs [].

Definition dict_keys (d : dict) : list str := map fst d.

End Dict.

(** ** Python values exchanged with [json]

    The objects [json.loads] builds and [json.dumps] prints: [None], [bool],
    [int], [float], [str], [list] and [dict] with [str] keys.  A [float] is
    carried as a decimal literal that denotes it (or as one of the three
    constants [json] knows); rounding to binary64 is not modelled, so the
    text of a float is the text of its literal. *)

Inductive digit := d0 | d1 | d2 | d3 | d4 | d5 | d6 | d7 | d8 | d9.

Inductive esign := ENone | EPlus | EMinus.

Record expo := { e_sign : esign; e_first : digit; e_rest : list digit }.

Inductive float_tail :=
| TFrac (d : digit) (ds : list digit) (e : option expo)
| TExp (e : expo).

Inductive pyfloat :=
| FLit (neg : bool) (ipart : N) (t : float_tail)
| FNaN
| FInf (neg : bool).

#[warnings="-register-all"]
Inductive value :=
| PyNone
| PyBool (b : bool)
| PyInt (z : Z)
| PyFloat (f : pyfloat)
| PyStr (s : str)
| PyList (l : list value)
| PyDict (d : list (str * value)).

(** *** Decimal digits *)

Definition digit_val (d : digit) : N :=
  match d with
  | d0 => 0 | d1 => 1 | d2 => 2 | d3 => 3 | d4 => 4
  | d5 => 5 | d6 => 6 | d7 => 7 | d8 => 8 | d9 => 9
  end.

Definition digit_char (d : digit) : char := 48 + digit_val d.

Definition char_digit (c : char) : option digit :=
  if c =? 48 then Some d0 else if c =? 49 then Some d1
  else if c =? 50 then Some d2 else if c =? 51 then Some d3
  else if c =? 52 then Some d4 else if c =? 53 then Some d5
  else if c =? 54 then Some d6 else if c =? 55 then Some d7
  else if c =? 56 then Some d8 else if c =? 57 then Some d9
  else None.

Fixpoint uint_digits (u : Decimal.uint) : list digit :=
  match u with
  | Decimal.Nil => []
  | Decimal.D0 u => d0 :: uint_digits u
  | Decimal.D1 u => d1 :: uint_digits u
  | Decimal.D2 u => d2 :: uint_digits u
  | Decimal.D3 u => d3 :: uint_digits u
  | Decimal.D4 u => d4 :: uint_digits u
  | Decimal.D5 u => d5 :: uint_digits u
  | Decimal.D6 u => d6 :: uint_digits u
  | Decimal.D7 u => d7 :: uint_digits u
  | Decimal.D8 u => d8 :: uint_digits u
  | Decimal.D9 u => d9 :: uint_digits u
  end.

Fixpoint digits_uint (l : list digit) : Decimal.uint :=
  match l with
  | [] => Decimal.Nil
  | d :: l' =>
      let u := digits_uint l' in
      match d with
      | d0 => Decimal.D0 u | d1 => Decimal.D1 u | d2 => Decimal.D2 u
      | d3 => Decimal.D3 u | d4 => Decimal.D4 u | d5 => Decimal.D5 u
      | d6 => Decimal.D6 u | d7 => Decimal.D7 u | d8 => Decimal.D8 u
      | d9 => Decimal.D9 u
      end
  end.

Definition digits_str (l : list digit) : str := map digit_char l.

(** The decimal digits of a natural number, without leading zeros. *)
Definition N_repr (n : N) : str := digits_str (uint_digits (N.to_uint n)).

(** [repr] of an [int] *)
Definition int_repr (z : Z) : str :=
  if (z <? 0)%Z then 45 :: N_repr (Z.abs_N z) else N_repr (Z.abs_N z).

Definition esign_str (s : esign) : str :=
  match s with ENone => [] | EPlus => [43] | EMinus => [45] end.

Definition expo_str (e : expo) : str :=
  101 :: esign_str (e_sign e) ++ digits_str (e_first e :: e_rest e).

Definition float_tail_str (t : float_tail) : str :=
  match t with
  | TFrac d ds e =>
      46 :: digits_str (d :: ds) ++
      match e with Some e => expo_str e | None => [] end
  | TExp e => expo_str e
  end.

Definition float_lit_str (neg : bool) (ipart : N) (t : float_tail) : str :=
  (if neg then [45] else []) ++ N_repr ipart ++ float_tail_str t.

(** *** [json.dumps] (default options: ASCII only output, separators
    [", "] and [": "]) *)

Definition hex_digit (n : N) : char := if n <? 10 then 48 + n else 87 + n.

Definition hex2 (n : N) : str :=
  [hex_digit (N.shiftr n 4 mod 16); hex_digit (n mod 16)].

Definition hex4 (n : N) : str :=
  [hex_digit (N.shiftr n 12 mod 16); hex_digit (N.shiftr n 8 mod 16);
   hex_digit (N.shiftr n 4 mod 16); hex_digit (n mod 16)].

(** ['\\u{0:04x}'.format(n)] *)
Definition u_escape (n : N) : str := backslash :: 117 :: hex4 n.

Definition encode_char (c : char) : str :=
  if c =? 92 then lit "\\"
  else if c =? 34 then [backslash; dquote]
  else if c =? 8 then lit "\b"
  else if c =? 12 then lit "\f"
  else if c =? 10 then lit "\n"
  else if c =? 13 then lit "\r"
  else if c =? 9 then lit "\t"
  else if (32 <=? c) && (c <=? 126) then [c]
  else if c <? 65536 then u_escape c
  else
    let n := c - 65536 in
    let s1 := N.lor 55296 (N.land (N.shiftr n 10) 1023) in
    let s2 := N.lor 56320 (N.land n 1023) in
    u_escape s1 ++ u_escape s2.

Definition encode_basestring_ascii (s : str) : str :=
  dquote :: flat_map encode_char s ++ [dquote].

Definition float_json (f : pyfloat) : str :=
  match f with
  | FLit neg ipart t => float_lit_str neg ipart t
  | FNaN => lit "NaN"
  | FInf false => lit "Infinity"
  | FInf true => lit "-Infinity"
  end.

(** The text of a value.  The function is total: the [ValueError] for an
    integer of more than 4300 digits and the [RecursionError] for a value
    nested beyond the stack are outside this model (see "The limits of the
    interpreter" below). *)
Fixpoint dumps (v : value) : str :=
  match v with
  | PyNone => lit "null"
  | PyBool true => lit "true"
  | PyBool false => lit "false"
  | PyInt z => int_repr z
  | PyFloat f => float_json f
  | PyStr s => encode_basestring_ascii s
  | PyList l => lit "[" ++ join (lit ", ") (map dumps l) ++ lit "]"
  | PyDict d =>
      lit "{" ++
      join (lit ", ")
        (map (fun kv : str * value =>
                let (k, x) := kv in
                encode_basestring_ascii k ++ lit ": " ++ dumps x) d) ++
      lit "}"
  end.

(** *** [json.loads] *)

Definition is_ws (c : char) : bool :=
  (c =? 32) || (c =? 9) || (c =? 10) || (c =? 13).

Fixpoint skip_ws (s : str) : str :=
  match s with
  | c :: r => if is_ws c then skip_ws r else s
  | [] => []
  end.

Definition hex_val (c : char) : option N :=
  if (48 <=? c) && (c <=? 57) then Some (c - 48)
  else if (97 <=? c) && (c <=? 102) then Some (c - 87)
  else if (65 <=? c) && (c <=? 70) then Some (c - 55)
  else None.

Definition decode_hex4 (h1 h2 h3 h4 : char) : option N :=
  match hex_val h1, hex_val h2, hex_val h3, hex_val h4 with
  | Some a, Some b, Some c, Some d => Some (((a * 16 + b) * 16 + c) * 16 + d)
  | _, _, _, _ => None
  end.

Definition is_high_surrogate (n : N) : bool := (55296 <=? n) && (n <=? 56319).
Definition is_low_surrogate (n : N) : bool := (56320 <=? n) && (n <=? 57343).

Definition join_surrogates (hi lo : N) : N :=
  65536 + N.lor (N.shiftl (hi - 55296) 10) (lo - 56320).

Definition unescape (c : char) : option char :=
  if c =? 34 then Some 34
  else if c =? 92 then Some 92
  else if c =? 47 then Some 47
  else if c =? 98 then Some 8
  else if c =? 102 then Some 12
  else if c =? 110 then Some 10
  else if c =? 114 then Some 13
  else if c =? 116 then Some 9
  else None.

Definition cons_char (c : char) (r : option (str * str)) : option (str * str) :=
  match r with
  | Some (s, rest) => Some (c :: s, rest)
  | None => None
  end.

(** The body of a string after its opening quote, up to and including the
    closing quote (strict mode: a raw control character is an error). *)
Fixpoint scanstring (s : str) : option (str * str) :=
  match s with
  | [] => None
  | c :: r =>
      if c =? 34 then Some ([], r)
      else if c =? 92 then
        match r with
        | [] => None
        | e :: r1 =>
            if e =? 117 then
              match r1 with
              | h1 :: h2 :: h3 :: h4 :: r2 =>
                  match decode_hex4 h1 h2 h3 h4 with
                  | None => None
                  | Some uni =>
                      if is_high_surrogate uni then
                        match r2 with
                        | a :: b :: r3 =>
                            if (a =? 92) && (b =? 117) then
                              match r3 with
                              | l1 :: l2 :: l3 :: l4 :: r4 =>
                                  match decode_hex4 l1 l2 l3 l4 with
                                  | None => None
                                  | Some uni2 =>
                                      if is_low_surrogate uni2
                                      then cons_char (join_surrogates uni uni2)
                                             (scanstring r4)
                                      else cons_char uni (scanstring r2)
                                  end
                              | _ => None
                              end
                            else cons_char uni (scanstring r2)
                        | _ => cons_char uni (scanstring r2)
                        end
                      else cons_char uni (scanstring r2)
                  end
              | _ => None
              end
            else
              match unescape e with
              | Some x => cons_char x (scanstring r1)
              | None => None
              end
        end
      else if c <? 32 then None
      else cons_char c (scanstring r)
  end.

Fixpoint scan_digits (s : str) : list digit * str :=
  match s with
  | [] => ([], [])
  | c :: r =>
      match char_digit c with
      | Some d => let (ds, r') := scan_digits r in (d :: ds, r')
      | None => ([], s)
      end
  end.

(** The integer part: [0], or a non-zero digit and the digits after it. *)
Definition scan_int_part (s : str) : option (N * str) :=
  match s with
  | [] => None
  | c :: r =>
      match char_digit c with
      | None => None
      | Some d0 => Some (0, r)
      | Some d =>
          let (ds, r') := scan_digits r in
          Some (N.of_uint (digits_uint (d :: ds)), r')
      end
  end.

(** A fraction: [.] and at least one digit. *)
Definition scan_frac (s : str) : option (digit * list digit * str) :=
  match s with
  | c :: c2 :: r =>
      if c =? 46 then
        match char_digit c2 with
        | Some d => let (ds, r') := scan_digits r in Some (d, ds, r')
        | None => None
        end
      else None
  | _ => None
  end.

(** An exponent: [e] or [E], an optional sign and at least one digit. *)
Definition scan_exp (s : str) : option (expo * str) :=
  match s with
  | [] => None
  | c :: r =>
      if (c =? 101) || (c =? 69) then
        let (sg, r1) :=
          match r with
          | x :: r' =>
              if x =? 43 then (EPlus, r')
              else if x =? 45 then (EMinus, r')
              else (ENone, r)
          | [] => (ENone, r)
          end in
        match scan_digits r1 with
        | (d :: ds, r2) =>
            Some ({| e_sign := sg; e_first := d; e_rest := ds |}, r2)
        | ([], _) => None
        end
      else None
  end.

(** An optional minus sign. *)
Definition scan_sign (s : str) : bool * str :=
  match s with
  | c :: r => if c =? 45 then (true, r) else (false, s)
  | [] => (false, s)
  end.

(** A number.  A float is kept as the literal read, where [json.loads]
    builds the binary64 number that the literal denotes. *)
Definition match_number (s : str) : option (value * str) :=
  let (neg, s1) := scan_sign s in
  match scan_int_part s1 with
  | None => None
  | Some (n, s2) =>
      match scan_frac s2 with
      | Some (d, ds, s3) =>
          match scan_exp s3 with
          | Some (e, s4) => Some (PyFloat (FLit neg n (TFrac d ds (Some e))), s4)
          | None => Some (PyFloat (FLit neg n (TFrac d ds None)), s3)
          end
      | None =>
          match scan_exp s2 with
          | Some (e, s4) => Some (PyFloat (FLit neg n (TExp e)), s4)
          | None => Some (PyInt (if neg then - Z.of_N n else Z.of_N n)%Z, s2)
          end
      end
  end.

(** [s] with the literal [p] taken off its front. *)
Definition strip_prefix (p s : str) : option str :=
  if startswith p s then Some (skipn (List.length p) s) else None.

Definition scan_constant (s : str) : option (value * str) :=
  match strip_prefix (lit "null") s with Some r => Some (PyNone, r) | None =>
  match strip_prefix (lit "true") s with Some r => Some (PyBool true, r) | None =>
  match strip_prefix (lit "false") s with Some r => Some (PyBool false, r) | None =>
  match strip_prefix (lit "NaN") s with Some r => Some (PyFloat FNaN, r) | None =>
  match strip_prefix (lit "Infinity") s with
  | Some r => Some (PyFloat (FInf false), r)
  | None =>
  match strip_prefix (lit "-Infinity") s with
  | Some r => Some (PyFloat (FInf true), r)
  | None => None
  end end end end end end.

(** One JSON term at the front of [s] and the text after it.  The scanner
    is recursive on the nesting of the document; [fuel] bounds the number of
    nested calls. *)
Fixpoint scan_once (fuel : nat) (s : str) : option (value * str) :=
  match fuel with
  | O => None
  | S fuel' =>
      match s with
      | [] => None
      | c :: r =>
          if c =? 34 then
            match scanstring r with
            | Some (x, rest) => Some (PyStr x, rest)
            | None => None
            end
          else if c =? 123 then
            match skip_ws r with
            | c' :: r' =>
                if c' =? 125 then Some (PyDict [], r')
                else
                  match parse_members fuel' (c' :: r') with
                  | Some (pairs, rest) => Some (PyDict (dict_of_pairs pairs), rest)
                  | None => None
                  end
            | [] => None
            end
          else if c =? 91 then
            match skip_ws r with
            | c' :: r' =>
                if c' =? 93 then Some (PyList [], r')
                else
                  match parse_elements fuel' (c' :: r') with
                  | Some (l, rest) => Some (PyList l, rest)
                  | None => None
                  end
            | [] => None
            end
          else
            match scan_constant s with
            | Some x => Some x
            | None => match_number s
            end
      end
  end

with parse_members (fuel : nat) (s : str) : option (list (str * value) * str) :=
  match fuel with
  | O => None
  | S fuel' =>
      match s with
      | [] => None
      | c :: r =>
          if c =? 34 then
            match scanstring r with
            | None => None
            | Some (key, r1) =>
                match skip_ws r1 with
                | [] => None
                | c1 :: r2 =>
                    if c1 =? 58 then
                      match scan_once fuel' (skip_ws r2) with
                      | None => None
                      | Some (val, r3) =>
                          match skip_ws r3 with
                          | [] => None
                          | c3 :: r4 =>
                              if c3 =? 125 then Some ([(key, val)], r4)
                              else if c3 =? 44 then
                                match parse_members fuel' (skip_ws r4) with
                                | Some (pairs, rest) =>
                                    Some ((key, val) :: pairs, rest)
                                | None => None
                                end
                              else None
                          end
                      end
                    else None
                end
            end
          else None
      end
  end

with parse_elements (fuel : nat) (s : str) : option (list value * str) :=
  match fuel with
  | O => None
  | S fuel' =>
      match scan_once fuel' s with
      | None => None
      | Some (val, r1) =>
          match skip_ws r1 with
          | [] => None
          | c :: r2 =>
              if c =? 93 then Some ([val], r2)
              else if c =? 44 then
                match parse_elements fuel' (skip_ws r2) with
                | Some (l, rest) => Some (val :: l, rest)
                | None => None
                end
              else None
          end
      end
  end.

(** Every nested call of the scanner passes at least one character, so this
    much fuel is never used up. *)
Definition scan_fuel (s : str) : nat := 2 * List.length s + 2.

(** [json.loads(s)]: [None] stands for [json.JSONDecodeError]. *)
Definition loads (s : str) : option value :=
  match scan_once (scan_fuel s) (skip_ws s) with
  | None => None
  | Some (v, rest) =>
      match skip_ws rest with
      | [] => Some v
      | _ :: _ => None
      end
  end.

(** *** [repr] and [str] *)

Definition hex8 (n : N) : str := hex4 (N.shiftr n 16) ++ hex4 n.

Section Repr.

(** [Py_UNICODE_ISPRINTABLE], a table of the Unicode database; it is
    consulted for code points above 127 only. *)
Variable printable : char -> bool.

Definition repr_char (quote c : char) : str :=
  if (c =? quote) || (c =? 92) then [backslash; c]
  else if c =? 9 then lit "\t"
  else if c =? 10 then lit "\n"
  else if c =? 13 then lit "\r"
  else if (c <? 32) || (c =? 127) then backslash :: 120 :: hex2 c
  else if c <? 127 then [c]
  else if printable c then [c]
  else if c <=? 255 then backslash :: 120 :: hex2 c
  else if c <=? 65535 then backslash :: 117 :: hex4 c
  else backslash :: 85 :: hex8 c.

(** Single quotes, unless the text has a single quote and no double one. *)
Definition str_repr (s : str) : str :=
  let quote :=
    if existsb (N.eqb squote) s && negb (existsb (N.eqb dquote) s)
    then dquote else squote in
  quote :: flat_map (repr_char quote) s ++ [quote].

(** The text of a float is the text of the literal that carries it: it is
    Python's [repr] for a float in its shortest form ([0.5], [1e+16]) and
    not for another literal of the same number ([0.50], [1e2]).  Statements
    about the string form of a value that may hold a float read from text
    are made for values without floats ([float_free]). *)
Definition float_repr (f : pyfloat) : str :=
  match f with
  | FLit neg ipart t => float_lit_str neg ipart t
  | FNaN => lit "nan"
  | FInf false => lit "inf"
  | FInf true => lit "-inf"
  end.

Fixpoint repr (v : value) : str :=
  match v with
  | PyNone => lit "None"
  | PyBool true => lit "True"
  | PyBool false => lit "False"
  | PyInt z => int_repr z
  | PyFloat f => float_repr f
  | PyStr s => str_repr s
  | PyList l => lit "[" ++ join (lit ", ") (map repr l) ++ lit "]"
  | PyDict d =>
      lit "{" ++
      join (lit ", ")
        (map (fun kv : str * value =>
                let (k, x) := kv in str_repr k ++ lit ": " ++ repr x) d) ++
      lit "}"
  end.

(** [str(v)] *)
Definition py_str (v : value) : str :=
  match v with
  | PyStr s => s
  | _ => repr v
  end.

End Repr.

(** ** Exceptions

    A Python call either returns a value or raises. *)

Inductive exn :=
| KeyError (key : value)
| IndexError
| TypeError
| AttributeError
| JSONDecodeError
| OSError (path : str)
| RemoteError (detail : str).

Inductive result (A : Type) :=
| Ok (a : A)
| Raise (e : exn).

Arguments Ok {A} a.
Arguments Raise {A} e.

(** [d[k]] *)
Definition dict_getitem {V : Type} (d : dict V) (k : str) : result V :=
  match dict_get d k with
  | Some v => Ok v
  | None => Raise (KeyError (PyStr k))
  end.

(** ** The operators the renderer applies to a parsed response, whatever
    its type turns out to be *)

(** [key in container], [key] a [str] *)
Definition py_in (key : str) (container : value) : result bool :=
  match container with
  | PyDict d => Ok (dict_contains d key)
  | PyList l =>
      Ok (existsb (fun x => match x with
                            | PyStr s => str_eqb key s
                            | _ => false
                            end) l)
  | PyStr s => Ok (str_contains key s)
  | PyNone | PyBool _ | PyInt _ | PyFloat _ => Raise TypeError
  end.

(** [container[key]], [key] a [str] *)
Definition py_getitem (container : value) (key : str) : result value :=
  match container with
  | PyDict d => dict_getitem d key
  | _ => Raise TypeError
  end.

(** [len(container)] *)
Definition py_len (container : value) : result nat :=
  match container with
  | PyDict d => Ok (List.length d)
  | PyList l => Ok (List.length l)
  | PyStr s => Ok (List.length s)
  | PyNone | PyBool _ | PyInt _ | PyFloat _ => Raise TypeError
  end.

(** [container[0]]; the keys of a parsed [dict] are strings, never [0] *)
Definition py_getitem0 (container : value) : result value :=
  match container with
  | PyList (x :: _) => Ok x
  | PyList [] => Raise IndexError
  | PyStr (c :: _) => Ok (PyStr [c])
  | PyStr [] => Raise IndexError
  | PyDict _ => Raise (KeyError (PyInt 0))
  | PyNone | PyBool _ | PyInt _ | PyFloat _ => Raise TypeError
  end.

(** ** os.path (POSIX) *)

Fixpoint rfind_from (c : char) (s : str) (i last : Z) : Z :=
  match s with
  | [] => last
  | x :: r => rfind_from c r (i + 1)%Z (if x =? c then i else last)
  end.

(** [s.rfind(c)]: the last index of [c], or -1 *)
Definition rfind (c : char) (s : str) : Z := rfind_from c s 0%Z (-1)%Z.

(** [s[a:b]] for [0 <= a] *)
Definition slice (s : str) (a b : Z) : str :=
  firstn (Z.to_nat (b - a)) (skipn (Z.to_nat a) s).

(** [os.path.splitext(p)]: the extension starts at the last dot of the last
    component, unless only dots come before it in that component. *)
Definition splitext (p : str) : str * str :=
  let sepIndex := rfind 47 p in
  let dotIndex := rfind 46 p in
  if (sepIndex <? dotIndex)%Z then
    if existsb (fun x => negb (x =? 46)) (slice p (sepIndex + 1) dotIndex)
    then (firstn (Z.to_nat dotIndex) p, skipn (Z.to_nat dotIndex) p)
    else (p, [])
  else (p, []).

Definition endswith_sep (p : str) : bool :=
  match rev p with
  | c :: _ => c =? 47
  | [] => false
  end.

(** [os.path.join(a, b)] *)
Definition path_join (a b : str) : str :=
  if startswith [47] b then b
  else if match a with [] => true | _ => endswith_sep a end then a ++ b
  else a ++ [47] ++ b.

(** ** The page, the requests sent and the files opened

    The script acts on the world around it: it opens files, calls the remote
    model and adds elements to the page.  A computation takes the world it
    starts in and gives the world it leaves, with a value or an exception. *)

Record ChatMessage := { role : str; content : str }.

Record request := {
  messages : list ChatMessage;
  model : str;
  temperature : pyfloat;
  max_tokens : N
}.

Inductive element :=
| spinner (text : str)
| subheader (body : str)
| write (body : str)
| expander (label : str)
| json (body : value)
| error (body : str)
| success (body : str).

Record world := {
  opened : list str;
  sent : list request;
  page : list element
}.

Definition M (A : Type) : Type := world -> result A * world.

Definition ret {A} (a : A) : M A := fun w => (Ok a, w).

Definition raise {A} (e : exn) : M A := fun w => (Raise e, w).

Definition bind {A B} (m : M A) (k : A -> M B) : M B :=
  fun w =>
    match m w with
    | (Ok a, w') => k a w'
    | (Raise e, w') => (Raise e, w')
    end.

Declare Scope py_scope.
Delimit Scope py_scope with py.
Notation "x <- m ;; k" := (bind m (fun x => k))
  (at level 61, m at next level, right associativity) : py_scope.
Notation "m ;; k" := (bind m (fun _ => k))
  (at level 61, right associativity) : py_scope.

Definition lift {A} (r : result A) : M A := fun w => (r, w).

(** The world once the elements [els] have been added to the page. *)
Definition shown (w : world) (els : list element) : world :=
  {| opened := opened w; sent := sent w; page := page w ++ els |}.

(** [st.<element>(...)]: the element is added at the end of the page. *)
Definition st (e : element) : M unit := fun w => (Ok tt, shown w [e]).

(** [try: body except json.JSONDecodeError: handler] *)
Definition try_except_JSONDecodeError {A} (body handler : M A) : M A :=
  fun w =>
    match body w with
    | (Raise JSONDecodeError, w') => handler w'
    | other => other
    end.

(** [json.loads] as a call that may raise.  The exception modelled is
    the one of the grammar, [JSONDecodeError]; the [RecursionError] and the
    [ValueError] that the interpreter raises for a document nested beyond
    its stack or holding an integer of more than 4300 digits are outside
    this model (see "The limits of the interpreter" below). *)
Definition json_loads (s : str) : M value :=
  match loads s with
  | Some v => ret v
  | None => raise JSONDecodeError
  end.

(** ** app.py *)

Definition filenames : list str :=
  [ lit "HMO Blue Copayment.txt";
    lit "HMO Blue New England Basic Saver.txt";
    lit "HMO Blue Saver.txt";
    lit "HMO Blue Select $2000 Deductible with Copayment.txt";
    lit "Preferred Blue PPO $4500 Deductible.txt" ].

Definition data_folder : str := lit "data".

Definition system_prompt : str :=
  lit "You are a helpful assistant specializing in comparing Blue Cross Blue Shield insurance plans. Provide concise, accurate comparisons based on the plans given.".

Definition parse_error_notice : str :=
  lit "Failed to parse JSON response. Raw response:".

Definition no_response_notice : str := lit "No response from Jamba-1.5-Large.".

(** [f'<plan name="{name}">{details}</plan>'] *)
Definition plan_segment (name details : str) : str :=
  lit "<plan name=" ++ [dquote] ++ name ++ [dquote] ++ lit ">" ++
  details ++ lit "</plan>".

Section App.

(** The files of the disk: the text [open(path, 'r').read()] gives, or
    nothing when the file cannot be opened. *)
Variable read_text : str -> option str.

(** [st.secrets] *)
Variable secrets : dict str.

(** The remote model: the [dict] form of the response to a request made
    with a key, or the exception the client raises. *)
Variable chat_completions_create : str -> request -> result (dict value).

Variable printable : char -> bool.

(** [with open(path, 'r') as file: file.read()] *)
Definition open_read (path : str) : M str :=
  fun w =>
    let w' := {| opened := opened w ++ [path]; sent := sent w;
                 page := page w |} in
    match read_text path with
    | Some text => (Ok text, w')
    | None => (Raise (OSError path), w')
    end.

(** The loop of [load_data] over the file names left, [plans] being the
    mapping built so far. *)
Fixpoint load_files (names : list str) (plans : dict str) : M (dict str) :=
  match names with
  | [] => ret plans
  | filename :: rest =>
      let plan_name := fst (splitext filename) in
      (text <- open_read (path_join data_folder filename) ;;
       load_files rest (dict_set plans plan_name text))%py
  end.

Definition load_data : M (dict str) := load_files filenames [].

(** [get_insurance_plans] *)
Definition get_insurance_plans (plans_data : dict str) : list str :=
  dict_keys plans_data.

Section Query.

(** The mapping [load_data] returned at start-up. *)
Variable plans_data : dict str.

(** [{name: plans_data[name] for name in plan_names if name in plans_data}],
    [acc] being the mapping built so far *)
Fixpoint select_plans (plan_names : list str) (acc : dict str)
  : result (dict str) :=
  match plan_names with
  | [] => Ok acc
  | name :: rest =>
      if dict_contains plans_data name then
        match dict_getitem plans_data name with
        | Ok details => select_plans rest (dict_set acc name details)
        | Raise e => Raise e
        end
      else select_plans rest acc
  end.

Definition concatenated_details (selected_plans : dict str) : str :=
  join (lit " ")
    (map (fun item : str * str =>
            let (name, details) := item in plan_segment name details)
       selected_plans).

Definition chat_request (question details : str) : request :=
  {| messages :=
       [ {| role := lit "system"; content := system_prompt |};
         {| role := lit "user";
            content := question ++ lit " " ++ details |} ];
     model := lit "jamba-1.5-large";
     temperature := FLit false 0 (TFrac d3 [] None);
     max_tokens := 5000 |}.

(** The call of the model: the request is sent, once. *)
Definition create (api_key : str) (req : request) : M (dict value) :=
  fun w =>
    (chat_completions_create api_key req,
     {| opened := opened w; sent := sent w ++ [req]; page := page w |}).

Definition run_jamba_query (question : str) (plan_names : list str)
  : M str :=
  (api_key <- lift (dict_getitem secrets (lit "AI21_API_KEY")) ;;
   selected_plans <- lift (select_plans plan_names []) ;;
   response <-
     create api_key
       (chat_request question (concatenated_details selected_plans)) ;;
   ret (dumps (PyDict response)))%py.

(** Lines 122-131: the message of a parsed response. *)
Definition extract_message (parsed_response : value) : result value :=
  match py_in (lit "choices") parsed_response with
  | Raise e => Raise e
  | Ok has_choices =>
      match
        (if has_choices then
           match py_getitem parsed_response (lit "choices") with
           | Raise e => Raise e
           | Ok choices =>
               match py_len choices with
               | Raise e => Raise e
               | Ok n => Ok (0 <? n)%nat
               end
           end
         else Ok false)
      with
      | Raise e => Raise e
      | Ok true =>
          match py_getitem parsed_response (lit "choices") with
          | Raise e => Raise e
          | Ok choices =>
              match py_getitem0 choices with
              | Raise e => Raise e
              | Ok choice =>
                  match py_in (lit "messages") choice with
                  | Raise e => Raise e
                  | Ok true => py_getitem choice (lit "messages")
                  | Ok false =>
                      match py_in (lit "mesages") choice with
                      | Raise e => Raise e
                      | Ok true => py_getitem choice (lit "mesages")
                      | Ok false => Ok (PyStr (py_str printable choice))
                      end
                  end
              end
          end
      | Ok false => Ok (PyStr (py_str printable parsed_response))
      end
  end.

(** [message.replace(...)....replace(...)]: only a [str] has the
    method. *)
Definition escape (message : value) : result str :=
  match message with
  | PyStr s => Ok (escaped_message s)
  | _ => Raise AttributeError
  end.

(** Lines 116-160: what is shown for the string [run_jamba_query]
    returned. *)
Definition show_response (jamba_response : str) : M unit :=
  match jamba_response with
  | _ :: _ =>
      try_except_JSONDecodeError
        (parsed_response <- json_loads jamba_response ;;
         message <- lift (extract_message parsed_response) ;;
         st (subheader (lit "Model Response:")) ;;
         escaped <- lift (escape message) ;;
         st (write escaped) ;;
         st (expander (lit "View Full Response")) ;;
         st (json parsed_response))%py
        (st (error parse_error_notice) ;;
         st (write (lit "<pre>" ++ jamba_response ++ lit "</pre>")))%py
  | [] => st (error no_response_notice)
  end.

(** Lines 111-161: the block under the "Compare Plans" button;
    [button] is what [st.button] returned. *)
Definition compare_plans (button : bool) (question : str)
    (selected_plans : list str) : M unit :=
  if button && (0 <? List.length selected_plans)%nat then
    (st (spinner (lit "Analyzing plans...")) ;;
     jamba_response <- run_jamba_query question selected_plans ;;
     show_response jamba_response ;;
     st (success (lit "Comparison complete!")))%py
  else ret tt.

End Query.

End App.

(** ** The specification's side of the statements *)

(** The names of a selection, each once, in the order of their first
    occurrence. *)
Definition add_name (seen : list str) (name : str) : list str :=
  if existsb (fun k => str_eqb k name) seen then seen else seen ++ [name].

Definition distinct (names : list str) : list str := fold_left add_name names [].

(** The text the store holds for a name. *)
Definition plan_text (plans_data : dict str) (name : str) : str :=
  match dict_get plans_data name with
  | Some text => text
  | None => []
  end.

(** The segment of a plan of the store. *)
Definition segment_of (plans_data : dict str) (name : str) : str :=
  plan_segment name (plan_text plans_data name).

(** The request for a question and a selection: the segments of the names
    the store knows. *)
Definition request_for (plans_data : dict str) (question : str)
    (plan_names : list str) : request :=
  chat_request question
    (join (lit " ")
       (map (segment_of plans_data)
          (distinct (filter (dict_contains plans_data) plan_names)))).

(** A response of the expected shape: an object whose [choices], when it
    has one, is an array whose first entry, when it has one, is an
    object. *)
Definition expected_shape (parsed : value) : bool :=
  match parsed with
  | PyDict d =>
      match dict_get d (lit "choices") with
      | None => true
      | Some (PyList []) => true
      | Some (PyList (PyDict _ :: _)) => true
      | Some _ => false
      end
  | _ => false
  end.

(** The chain of fallbacks: the field [messages] of the first choice, else
    its field [mesages], else the string form of the choice; the string form
    of the whole response when there is no first choice. *)
Definition message_spec (printable : char -> bool) (parsed : value) : value :=
  match parsed with
  | PyDict d =>
      match dict_get d (lit "choices") with
      | Some (PyList (PyDict entry :: _)) =>
          match dict_get entry (lit "messages") with
          | Some m => m
          | None =>
              match dict_get entry (lit "mesages") with
              | Some m => m
              | None => PyStr (py_str printable (PyDict entry))
              end
          end
      | _ => PyStr (py_str printable parsed)
      end
  | _ => PyStr (py_str printable parsed)
  end.

(** ** The scenarios of the specification *)

(** A key or a text between double quotes, as it stands in a JSON document
    when nothing in it needs an escape. *)
Definition quoted (s : string) : str := dquote :: lit s ++ [dquote].

(** [{"choices":[{"messages":"Plan A has a $500 deductible."}]}] *)
Definition round_trip_raw : str :=
  lit "{" ++ quoted "choices" ++ lit ":[{" ++ quoted "messages" ++ lit ":" ++
  quoted "Plan A has a $500 deductible." ++ lit "}]}".

(** [{"choices":[{"mesages":"test_value"}]}] *)
Definition alternate_key_raw : str :=
  lit "{" ++ quoted "choices" ++ lit ":[{" ++ quoted "mesages" ++ lit ":" ++
  quoted "test_value" ++ lit "}]}".

(** [{"choices":[]}] *)
Definition empty_choices_raw : str := lit "{" ++ quoted "choices" ++ lit ":[]}".

(** [{"choices":[{"message":"hi"}]}] *)
Definition message_key_raw : str :=
  lit "{" ++ quoted "choices" ++ lit ":[{" ++ quoted "message" ++ lit ":" ++
  quoted "hi" ++ lit "}]}".

Definition malformed_raw : str := lit "not json".

Definition empty_world : world := {| opened := []; sent := []; page := [] |}.

(** A table for the scenarios, all of whose texts are ASCII. *)
Definition all_printable : char -> bool := fun _ => true.

(** A store of two plans, a key, a model that answers and one that is
    down. *)
Definition demo_plans : dict str :=
  [ (lit "Plan A", lit "A covers X."); (lit "Plan B", lit "B covers Y.") ].

Definition demo_secrets : dict str := [ (lit "AI21_API_KEY", lit "secret") ].

Definition demo_response : dict value :=
  [ (lit "choices",
     PyList [ PyDict [ (lit "messages",
                        PyStr (lit "Plan A has a $500 deductible.")) ] ]) ].

Definition demo_remote : str -> request -> result (dict value) :=
  fun _ _ => Ok demo_response.

Definition remote_down : str -> request -> result (dict value) :=
  fun _ _ => Raise (RemoteError (lit "connection refused")).

(** A disk with the five files, and one where the third is missing. *)
Definition demo_disk : str -> option str :=
  fun path =>
    if existsb (str_eqb path) (map (path_join data_folder) filenames)
    then Some (lit "text of " ++ path) else None.

Definition disk_without_saver : str -> option str :=
  fun path =>
    if str_eqb path (lit "data/HMO Blue Saver.txt") then None
    else demo_disk path.

(** ** Notions used in the proofs *)

(** No string occurs twice in the list. *)
Fixpoint distinctb (l : list str) : bool :=
  match l with
  | [] => true
  | x :: r => negb (existsb (str_eqb x) r) && distinctb r
  end.

(** What follows a term in a dumped document: nothing, a comma or a closing
    bracket or brace. *)
Definition is_delim (c : char) : bool := (c =? 44) || (c =? 93) || (c =? 125).

(** The text after a term starts as such a text does. *)
Definition terminated (rest : str) : Prop :=
  match rest with
  | [] => True
  | c :: _ => is_delim c = true
  end.

(** The text does not start with a digit. *)
Definition nondigit_head (rest : str) : Prop :=
  match rest with
  | [] => True
  | c :: _ => char_digit c = None
  end.

(** The text starts as a number does: with a digit, or with a minus sign
    and a digit. *)
Definition numeric_head (s : str) : Prop :=
  match s with
  | c :: r =>
      (exists d, c = digit_char d) \/
      (c = 45 /\ exists d r', r = digit_char d :: r')
  | [] => False
  end.

(** The two halves [json.dumps] writes for a code point above 65535. *)
Definition high_of (c : char) : N :=
  N.lor 55296 (N.land (N.shiftr (c - 65536) 10) 1023).

Definition low_of (c : char) : N :=
  N.lor 56320 (N.land (c - 65536) 1023).

(** The string [json.loads] gives back for a string [json.dumps] wrote:
    the same, but for a code point out of range, written as its two halves,
    and for halves that stand side by side in the string, read as one code
    point. *)
Fixpoint norm_str (s : str) : str :=
  match s with
  | [] => []
  | c :: r =>
      if 65536 <=? c then join_surrogates (high_of c) (low_of c) :: norm_str r
      else if is_high_surrogate c then
        match r with
        | c2 :: r' =>
            if is_low_surrogate c2
            then join_surrogates c c2 :: norm_str r'
            else c :: norm_str r
        | [] => [c]
        end
      else c :: norm_str r
  end.

(** What the scanner does after an escape [\uXXXX] of value [uni] that is
    a high half, [t] being the text after it. *)
Definition lookahead (uni : N) (t : str) : option (str * str) :=
  match t with
  | a :: b :: r3 =>
      if (a =? 92) && (b =? 117) then
        match r3 with
        | l1 :: l2 :: l3 :: l4 :: r4 =>
            match decode_hex4 l1 l2 l3 l4 with
            | None => None
            | Some uni2 =>
                if is_low_surrogate uni2
                then cons_char (join_surrogates uni uni2) (scanstring r4)
                else cons_char uni (scanstring t)
            end
        | _ => None
        end
      else cons_char uni (scanstring t)
  | _ => cons_char uni (scanstring t)
  end.

(** How [json.dumps] writes a character. *)
Inductive encoding (c : char) : str -> Prop :=
| enc_plain : c <> 34 -> c <> 92 -> 32 <= c -> c <= 126 -> encoding c [c]
| enc_short (e : char) :
    e <> 117 -> unescape e = Some c -> c <= 92 -> encoding c [92; e]
| enc_escape : c < 65536 -> encoding c (u_escape c)
| enc_pair :
    65536 <= c -> encoding c (u_escape (high_of c) ++ u_escape (low_of c)).

(** The value [json.loads] gives back for a value [json.dumps] wrote. *)
Fixpoint norm (v : value) : value :=
  match v with
  | PyStr s => PyStr (norm_str s)
  | PyList l => PyList (map norm l)
  | PyDict d =>
      PyDict
        (dict_of_pairs
           (map (fun kv : str * value =>
                   let (k, x) := kv in (norm_str k, norm x)) d))
  | PyNone | PyBool _ | PyInt _ | PyFloat _ => v
  end.

(** A member of a dumped object: the key, a colon, a space, the value. *)
Definition member_text (kv : str * value) : str :=
  let (k, x) := kv in encode_basestring_ascii k ++ [58; 32] ++ dumps x.

(** A dumped term starts with a character that is neither white space nor
    a closing bracket or brace. *)
Definition opening_char (c : char) : Prop :=
  is_ws c = false /\ c <> 93 /\ c <> 125.

(** The statement proved of each term by induction. *)
Definition scans_back (v : value) : Prop :=
  forall (fuel : nat) (rest : str),
    (2 * List.length (dumps v) <= fuel)%nat -> terminated rest ->
    scan_once fuel (dumps v ++ rest) = Some (norm v, rest).

(** The member read back for a member written. *)
Definition norm_pair (kv : str * value) : str * value :=
  let (k, x) := kv in (norm_str k, norm x).

(** A scan that succeeds leaves a text shorter than the one it was
    given. *)
Definition consumes (fuel : nat) : Prop :=
  (forall s v r, scan_once fuel s = Some (v, r) ->
                 (List.length r < List.length s)%nat) /\
  (forall s l r, parse_members fuel s = Some (l, r) ->
                 (List.length r < List.length s)%nat) /\
  (forall s l r, parse_elements fuel s = Some (l, r) ->
                 (List.length r < List.length s)%nat).

(** A scan that succeeds with some fuel succeeds, with the same result,
    with any fuel above twice the length of the text. *)
Definition adequate (fuel' : nat) : Prop :=
  (forall s r fuel, scan_once fuel' s = Some r ->
     (2 * List.length s + 1 <= fuel)%nat -> scan_once fuel s = Some r) /\
  (forall s r fuel, parse_members fuel' s = Some r ->
     (2 * List.length s + 2 <= fuel)%nat -> parse_members fuel s = Some r) /\
  (forall s r fuel, parse_elements fuel' s = Some r ->
     (2 * List.length s + 2 <= fuel)%nat -> parse_elements fuel s = Some r).

(** ** Notions of the further properties *)

(** The elements a computation adds to the page. *)
Definition added (m : M unit) (w : world) : list element :=
  skipn (List.length (page w)) (page (snd (m w))).

(** A text without any of the twelve special characters. *)
Definition plain_text (s : str) : bool :=
  forallb (fun c => negb (is_special c)) s.

(** Reading an escaped text back: a backslash before a special character
    is dropped. *)
Fixpoint unescape_markdown (s : str) : str :=
  match s with
  | [] => []
  | c :: r =>
      match r with
      | c2 :: r' =>
          if (c =? 92) && is_special c2 then c2 :: unescape_markdown r'
          else c :: unescape_markdown r
      | [] => [c]
      end
  end.

(** A Unicode scalar value: a code point that is not half of a pair. *)
Definition is_scalar (c : char) : bool :=
  (c <? 55296) || ((57344 <=? c) && (c <? 1114112)).

Definition scalar_str (s : str) : bool := forallb is_scalar s.

(** A value as a Python program builds it from text: its strings hold
    scalar values and no mapping in it has a key twice. *)
Fixpoint well_formed (v : value) : bool :=
  match v with
  | PyStr s => scalar_str s
  | PyList l => forallb well_formed l
  | PyDict d =>
      distinctb (map fst d) &&
      forallb (fun kv : str * value =>
                 let (k, x) := kv in scalar_str k && well_formed x) d
  | PyNone | PyBool _ | PyInt _ | PyFloat _ => true
  end.



(** Secrets that hold another key only. *)
Definition other_secrets : dict str := [(lit "OTHER_KEY", lit "value")].

(** *** The limits of the interpreter

    Besides [JSONDecodeError], [json.loads] raises [RecursionError] when
    the containers of a document nest deeper than the interpreter's stack
    allows and [ValueError] for an integer of more than 4300 digits;
    [json.dumps] raises the same two for a value nested that deep or
    holding such an integer.  [loads] and [dumps] above describe the
    grammar only: [None] is the document that the grammar rejects, and
    no result of theirs stands for these two exceptions.  The statements
    whose truth depends on the difference are made for texts and values
    that stay well inside the limits, as measured here. *)

(** The default of [sys.get_int_max_str_digits()]. *)
Definition max_str_digits : nat := 4300.

(** A nesting depth far inside the default recursion limit (1000). *)
Definition safe_depth : nat := 100.

(** The brackets and braces that open a container, counted wherever they
    stand: the scanner never nests deeper than this. *)
Definition openings (raw : str) : nat :=
  List.length (filter (fun c => (c =? 91) || (c =? 123)) raw).

(** The longest run of decimal digits: no integer of the text is longer. *)
Fixpoint digit_run_from (raw : str) (current best : nat) : nat :=
  match raw with
  | [] => Nat.max current best
  | c :: r =>
      match char_digit c with
      | Some _ => digit_run_from r (S current) best
      | None => digit_run_from r 0 (Nat.max current best)
      end
  end.

Definition longest_digit_run (raw : str) : nat := digit_run_from raw 0 0.

(** A text on which [json.loads] raises [JSONDecodeError] or nothing. *)
Definition modest_text (raw : str) : bool :=
  (openings raw <=? safe_depth)%nat &&
  (longest_digit_run raw <=? max_str_digits)%nat.

(** The depth to which the containers of a value nest. *)
Fixpoint depth (v : value) : nat :=
  match v with
  | PyList l => S (list_max (map depth l))
  | PyDict d =>
      S (list_max (map (fun kv : str * value => let (_, x) := kv in depth x) d))
  | PyNone | PyBool _ | PyInt _ | PyFloat _ | PyStr _ => 0
  end.

(** Every integer of the value has at most 4300 digits. *)
Fixpoint short_ints (v : value) : bool :=
  match v with
  | PyInt z => (Z.abs z <? 10 ^ Z.of_nat max_str_digits)%Z
  | PyList l => forallb short_ints l
  | PyDict d =>
      forallb (fun kv : str * value => let (_, x) := kv in short_ints x) d
  | PyNone | PyBool _ | PyFloat _ | PyStr _ => true
  end.

(** A value that [json.dumps] prints, and [json.loads] reads back,
    without meeting a limit. *)
Definition modest_value (v : value) : bool :=
  (depth v <=? safe_depth)%nat && short_ints v.

(** A value that holds no [float]: its [repr] does not depend on how a
    float is printed. *)
Fixpoint float_free (v : value) : bool :=
  match v with
  | PyFloat _ => false
  | PyList l => forallb float_free l
  | PyDict d =>
      forallb (fun kv : str * value => let (_, x) := kv in float_free x) d
  | PyNone | PyBool _ | PyInt _ | PyStr _ => true
  end.

(** * Properties *)

Unset Implicit Arguments.

Section ReplaceFacts.

Variables (c : char) (new : str).

Lemma replace_from_single (s : str) :
  replace_from [c] new 0 s =
  flat_map (fun x => if c =? x then new else [x]) s.
Proof.
  induction s as [|x s IH]; simpl; [reflexivity|].
  rewrite andb_true_r.
  destruct (c =? x); simpl; now rewrite IH.
Qed.

Lemma replace_single (s : str) :
  replace s [c] new = flat_map (fun x => if c =? x then new else [x]) s.
Proof. apply replace_from_single. Qed.

End ReplaceFacts.

Lemma flat_map_flat_map (A B C : Type) (f : A -> list B) (g : B -> list C) l :
  flat_map g (flat_map f l) = flat_map (fun x => flat_map g (f x)) l.
Proof.
  induction l as [|x l IH]; simpl; [reflexivity|].
  now rewrite flat_map_app, IH.
Qed.

Lemma escaped_message_flat_map (s : str) :
  escaped_message s = flat_map (fun x => escaped_message [x]) s.
Proof.
  unfold escaped_message; cbn -[replace].
  rewrite !replace_single, !flat_map_flat_map.
  apply flat_map_ext; intros x.
  rewrite !replace_single, !flat_map_flat_map.
  cbn [flat_map]. now rewrite !List.app_nil_r.
Qed.

Lemma escaped_message_char (x : char) :
  escaped_message [x] = escape_char_spec x.
Proof.
  unfold escape_char_spec, is_special, special_chars.
  unfold escaped_message; cbn -[replace N.eqb].
  rewrite !replace_single.
  repeat match goal with
  | |- context [N.eqb x ?k] =>
      destruct (N.eqb_spec x k) as [->|?]; [reflexivity|]
  end.
  cbn [orb].
  repeat (cbn [flat_map app];
          match goal with
          | |- context [N.eqb ?k x] =>
              destruct (N.eqb_spec k x) as [<-|?]; [congruence|]
          end).
  reflexivity.
Qed.
Lemma escaped_message_spec (s : str) : escaped_message s = escape_spec s.
Proof.
  rewrite escaped_message_flat_map. unfold escape_spec.
  apply flat_map_ext. exact escaped_message_char.
Qed.

Lemma escape_spec_length (s : str) :
  List.length (escape_spec s) =
  (List.length s + List.length (filter is_special s))%nat.
Proof.
  unfold escape_spec.
  induction s as [|c s IH]; [reflexivity|].
  cbn [flat_map filter]. rewrite length_app, IH.
  unfold escape_char_spec. destruct (is_special c); cbn [List.length]; lia.
Qed.

(** C1. The twelve [replace] calls of the renderer, taken in the order of
    the source, put exactly one backslash before every occurrence of one of
    the characters [$ * _ [ ] ( ) # + - . !] of the message and leave every
    other character as it is; a backslash already in the message, or one
    inserted by an earlier call, is never escaped again, so the output is
    longer than the message by the number of its special characters. *)
Theorem escaping_is_total (s : str) :
  escaped_message s = escape_spec s /\
  is_special backslash = false /\
  List.length (escaped_message s) =
    (List.length s + List.length (filter is_special s))%nat.
Proof.
  split; [apply escaped_message_spec|]. split; [reflexivity|].
  rewrite escaped_message_spec. apply escape_spec_length.
Qed.

(** ** The world *)

Lemma shown_shown (w : world) (a b : list element) :
  shown (shown w a) b = shown w (a ++ b).
Proof. unfold shown; cbn. now rewrite app_assoc. Qed.

(** ** The "Compare Plans" button *)

(** C9. With no plan selected the block under the button does nothing: no
    prompt is built, no request is sent and nothing is added to the page,
    whether the button was pressed or not. *)
Theorem empty_selection_does_nothing
    (secrets : dict str) (remote : str -> request -> result (dict value))
    (printable : char -> bool) (plans_data : dict str)
    (button : bool) (question : str) (w : world) :
  compare_plans secrets remote printable plans_data button question [] w
  = (Ok tt, w).
Proof.
  unfold compare_plans. cbn [List.length Nat.ltb Nat.leb].
  now rewrite andb_false_r.
Qed.

(** ** The renderer *)

Section Renderer.

Variable printable : char -> bool.

(** The exceptions of the extraction are those of the operators it
    applies; none is the one the [try] statement catches. *)
Lemma extract_message_not_decode_error (parsed : value) :
  extract_message printable parsed <> Raise JSONDecodeError.
Proof.
  unfold extract_message, py_in, py_getitem, py_len, py_getitem0,
    dict_getitem.
  repeat match goal with
  | |- context [existsb ?f ?l] => destruct (existsb f l)
  | |- context [match ?x with _ => _ end] =>
      lazymatch x with
      | context [match _ with _ => _ end] => fail
      | _ => destruct x
      end
  end; discriminate.
Qed.

Lemma escape_not_decode_error (message : value) :
  escape message <> Raise JSONDecodeError.
Proof. destruct message; discriminate. Qed.

(** What the renderer shows for a string that [json.loads] accepts. *)
Lemma show_response_parsed (raw : str) (parsed : value) (w : world) :
  raw <> [] ->
  loads raw = Some parsed ->
  show_response printable raw w =
  match extract_message printable parsed with
  | Raise e => (Raise e, w)
  | Ok message =>
      match escape message with
      | Raise e => (Raise e, shown w [subheader (lit "Model Response:")])
      | Ok escaped =>
          (Ok tt,
           shown w [subheader (lit "Model Response:"); write escaped;
                    expander (lit "View Full Response"); json parsed])
      end
  end.
Proof.
  intros Hne Hl. destruct raw as [|c raw]; [congruence|].
  unfold show_response, try_except_JSONDecodeError, json_loads, bind.
  rewrite Hl. unfold ret, lift, st.
  pose proof (extract_message_not_decode_error parsed) as Hx.
  destruct (extract_message printable parsed) as [message|e].
  - pose proof (escape_not_decode_error message) as Hy.
    destruct (escape message) as [escaped|e].
    + now rewrite !shown_shown.
    + destruct e; congruence.
  - destruct e; congruence.
Qed.

(** What the renderer shows for a non-empty string that [json.loads]
    rejects. *)
Lemma show_response_malformed (raw : str) (w : world) :
  raw <> [] ->
  loads raw = None ->
  show_response printable raw w =
  (Ok tt,
   shown w [error parse_error_notice;
            write (lit "<pre>" ++ raw ++ lit "</pre>")]).
Proof.
  intros Hne Hl. destruct raw as [|c raw]; [congruence|].
  unfold show_response, try_except_JSONDecodeError, json_loads, bind.
  rewrite Hl. unfold raise, st. now rewrite shown_shown.
Qed.

End Renderer.

(** C5. For the raw response
    [{"choices":[{"messages":"Plan A has a $500 deductible."}]}] the first
    choice has the field [messages], the message is the value of that field
    (no fallback is taken), and the text written is
    [Plan A has a \$500 deductible\.]. *)
Theorem round_trip_scenario (printable : char -> bool) (w : world) :
  exists choice,
    let parsed := PyDict [(lit "choices", PyList [choice])] in
    loads round_trip_raw = Some parsed /\
    py_in (lit "messages") choice = Ok true /\
    py_getitem choice (lit "messages") =
      Ok (PyStr (lit "Plan A has a $500 deductible.")) /\
    extract_message printable parsed =
      Ok (PyStr (lit "Plan A has a $500 deductible.")) /\
    show_response printable round_trip_raw w =
      (Ok tt,
       shown w [subheader (lit "Model Response:");
                write (lit "Plan A has a \$500 deductible\.");
                expander (lit "View Full Response"); json parsed]).
Proof.
  exists (PyDict [(lit "messages",
                   PyStr (lit "Plan A has a $500 deductible."))]).
  cbv zeta.
  assert (L : loads round_trip_raw =
              Some (PyDict [(lit "choices",
                PyList [PyDict [(lit "messages",
                   PyStr (lit "Plan A has a $500 deductible."))]])]))
    by (vm_compute; reflexivity).
  split; [exact L|]. repeat split; try reflexivity.
  rewrite (show_response_parsed printable round_trip_raw _ w
             ltac:(discriminate) L).
  reflexivity.
Qed.

(** C7, as the code has it.  A string that is not empty, that stays
    inside the limits of the interpreter (at most a hundred opening
    brackets and braces, no run of more than 4300 digits) and that
    [json.loads] rejects, the string [not json] for one, makes the renderer
    show the parse error notice and then the string itself, unchanged,
    between [<pre>] and [</pre>]; nothing is raised.  Past those limits
    the rejection may be a [RecursionError] or a [ValueError], which the
    handler of line 156 does not catch: such strings are left out. *)
Theorem malformed_response_shown_raw
    (printable : char -> bool) (raw : str) (w : world) :
  raw <> [] ->
  modest_text raw = true ->
  loads raw = None ->
  show_response printable raw w =
    (Ok tt,
     shown w [error parse_error_notice;
              write (lit "<pre>" ++ raw ++ lit "</pre>")]) /\
  loads malformed_raw = None.
Proof.
  intros Hne _ Hl. split; [now apply show_response_malformed|].
  vm_compute; reflexivity.
Qed.

Lemma malformed_response_shown_raw_witness :
  show_response all_printable malformed_raw empty_world =
    (Ok tt,
     shown empty_world
       [error parse_error_notice; write (lit "<pre>not json</pre>")]) /\
  loads malformed_raw = None.
Proof.
  apply (malformed_response_shown_raw all_printable malformed_raw
           empty_world).
  - discriminate.
  - vm_compute; reflexivity.
  - vm_compute; reflexivity.
Defined.

(** The empty string is not parseable either, and for it the renderer shows
    the "no response" notice, not the parse error and the raw string. *)
Lemma empty_response_not_shown_raw :
  loads [] = None /\
  show_response all_printable [] empty_world =
    (Ok tt, shown empty_world [error no_response_notice]) /\
  show_response all_printable [] empty_world <>
    (Ok tt,
     shown empty_world
       [error parse_error_notice; write (lit "<pre>" ++ [] ++ lit "</pre>")]).
Proof.
  split; [reflexivity|]. split; [reflexivity|]. discriminate.
Qed.

(** C3, as the code has it.  For a parsed response of the expected shape
    the extraction raises nothing and follows the chain: with a first choice,
    its field [messages], else its field [mesages], else the string form of
    the choice; with [choices] absent or empty, the string form of the whole
    response.  So [{"choices":[{"mesages":"test_value"}]}] gives
    [test_value] and [{"choices":[]}] gives [{'choices': []}]. *)
Theorem extraction_chain (printable : char -> bool) (parsed : value) :
  expected_shape parsed = true ->
  extract_message printable parsed = Ok (message_spec printable parsed) /\
  (exists p, loads alternate_key_raw = Some p /\
             extract_message printable p = Ok (PyStr (lit "test_value"))) /\
  (exists p, loads empty_choices_raw = Some p /\
             extract_message printable p =
               Ok (PyStr (lit "{'choices': []}"))).
Proof.
  intros Hs. split; [|split].
  - destruct parsed as [| | | | | |d]; try discriminate.
    unfold expected_shape in Hs.
    unfold extract_message, message_spec, py_in, py_getitem, dict_getitem,
      dict_contains.
    destruct (dict_get d (lit "choices")) as [choices|]; [|reflexivity].
    destruct choices as [| | | | |l|]; try discriminate.
    destruct l as [|first rest]; [reflexivity|].
    destruct first as [| | | | | |entry]; try discriminate.
    cbn [py_len List.length Nat.ltb Nat.leb py_getitem0].
    destruct (dict_get entry (lit "messages")); [reflexivity|].
    destruct (dict_get entry (lit "mesages")); reflexivity.
  - eexists; split; [vm_compute; reflexivity|reflexivity].
  - eexists; split; [vm_compute; reflexivity|reflexivity].
Qed.

Lemma extraction_chain_witness :
  extract_message all_printable
    (PyDict [(lit "choices", PyList [PyDict [(lit "mesages", PyInt 7)]])]) =
  Ok (PyInt 7).
Proof.
  exact (proj1 (extraction_chain all_printable
    (PyDict [(lit "choices", PyList [PyDict [(lit "mesages", PyInt 7)]])])
    eq_refl)).
Defined.

(** The key the code looks for is [messages], not [message], and a parsed
    response need not be an object: for [{"choices":[{"message":"hi"}]}]
    the message is the string form of the choice, and for the document [5]
    the extraction raises [TypeError]. *)
Lemma extraction_message_key_and_raise :
  (exists p, loads message_key_raw = Some p /\
             extract_message all_printable p =
               Ok (PyStr (lit "{'message': 'hi'}")) /\
             extract_message all_printable p <> Ok (PyStr (lit "hi"))) /\
  loads (lit "5") = Some (PyInt 5) /\
  extract_message all_printable (PyInt 5) = Raise TypeError.
Proof.
  split; [|split; [vm_compute; reflexivity|reflexivity]].
  eexists; split; [vm_compute; reflexivity|].
  split; [reflexivity|discriminate].
Qed.

(** ** Strings as keys *)

Lemma str_eqb_eq (a b : str) : str_eqb a b = true <-> a = b.
Proof.
  revert b; induction a as [|x a IH]; intros [|y b]; cbn;
    try (split; [discriminate|congruence]); [tauto|].
  rewrite andb_true_iff, N.eqb_eq, IH. split.
  - now intros [-> ->].
  - intros H; inversion H; auto.
Qed.

Lemma str_eqb_refl (a : str) : str_eqb a a = true.
Proof. now apply str_eqb_eq. Qed.

Lemma distinctb_NoDup (l : list str) : distinctb l = true -> NoDup l.
Proof.
  induction l as [|x r IH]; cbn; [constructor|].
  rewrite andb_true_iff, negb_true_iff. intros [Hx Hr].
  constructor; [|auto].
  intros Hin. assert (existsb (str_eqb x) r = true); [|congruence].
  apply existsb_exists. exists x. split; [assumption|apply str_eqb_refl].
Qed.


(** ** The selection and the prompt *)

Section Prompt.

Variable secrets : dict str.
Variable remote : str -> request -> result (dict value).
Variable plans_data : dict str.

Let known : str -> bool := dict_contains plans_data.
Let items (names : list str) : dict str :=
  map (fun n => (n, plan_text plans_data n)) names.

Lemma add_name_cons (k : str) (seen : list str) (name : str) :
  str_eqb k name = false ->
  add_name (k :: seen) name = k :: add_name seen name.
Proof.
  intros H. unfold add_name. cbn [existsb]. rewrite H. cbn [orb].
  now destruct (existsb (fun k0 => str_eqb k0 name) seen).
Qed.

Lemma dict_set_items (seen : list str) (name : str) :
  dict_set (items seen) name (plan_text plans_data name) =
  items (add_name seen name).
Proof.
  induction seen as [|k seen IH].
  - reflexivity.
  - cbn [items map dict_set].
    destruct (str_eqb k name) eqn:E.
    + apply str_eqb_eq in E; subst k.
      unfold add_name. cbn [existsb]. now rewrite str_eqb_refl.
    + rewrite add_name_cons by assumption.
      unfold items in *. cbn [map]. f_equal. apply IH.
Qed.

Lemma select_plans_items (plan_names seen : list str) :
  select_plans plans_data plan_names (items seen) =
  Ok (items (fold_left add_name (filter known plan_names) seen)).
Proof.
  revert seen; induction plan_names as [|name rest IH]; intros seen;
    [reflexivity|].
  cbn [select_plans filter]. unfold known at 1.
  unfold dict_getitem, dict_contains at 1 2.
  pose proof (dict_set_items seen name) as Hs. unfold plan_text in Hs at 1.
  destruct (dict_get plans_data name) as [details|]; [|apply IH].
  rewrite Hs. apply IH.
Qed.

(** The comprehension never raises: it yields the known names of the
    selection, each once, with their texts. *)
Lemma select_plans_total (plan_names : list str) :
  select_plans plans_data plan_names [] =
  Ok (items (distinct (filter known plan_names))).
Proof. exact (select_plans_items plan_names []). Qed.

Lemma concatenated_details_items (names : list str) :
  concatenated_details (items names) =
  join (lit " ") (map (segment_of plans_data) names).
Proof.
  unfold concatenated_details, items. now rewrite map_map.
Qed.

(** With the key configured the query sends its request, once, and
    returns what the call gives: the dumped response or its exception. *)
Lemma run_jamba_query_calls (question : str) (plan_names : list str)
    (api_key : str) (w : world) :
  dict_get secrets (lit "AI21_API_KEY") = Some api_key ->
  run_jamba_query secrets remote plans_data question plan_names w =
  (match remote api_key (request_for plans_data question plan_names) with
   | Ok response => Ok (dumps (PyDict response))
   | Raise e => Raise e
   end,
   {| opened := opened w;
      sent := sent w ++ [request_for plans_data question plan_names];
      page := page w |}).
Proof.
  intros Hk. unfold run_jamba_query, bind, lift, dict_getitem.
  rewrite Hk, select_plans_total, concatenated_details_items.
  unfold create, request_for.
  destruct (remote api_key _); reflexivity.
Qed.

Lemma filter_known_all (plan_names : list str) :
  Forall (fun n => dict_contains plans_data n = true) plan_names ->
  filter known plan_names = plan_names.
Proof.
  induction 1 as [|n l Hn _ IH]; [reflexivity|].
  cbn [filter]. unfold known at 1. now rewrite Hn, IH.
Qed.

End Prompt.






(** C6. Whatever the selection, the comprehension raises nothing and keeps
    the names the store knows: the prompt has a segment for each of these
    names and for no other, and a selection gives the prompt that its known
    names alone give. *)
Theorem unknown_names_dropped
    (secrets : dict str) (remote : str -> request -> result (dict value))
    (plans_data : dict str) (question : str) (plan_names : list str)
    (api_key : str) (w : world) :
  dict_get secrets (lit "AI21_API_KEY") = Some api_key ->
  let known := filter (dict_contains plans_data) plan_names in
  let prompt :=
    question ++ lit " " ++
    join (lit " ") (map (segment_of plans_data) (distinct known)) in
  (exists selected,
     select_plans plans_data plan_names [] = Ok selected /\
     dict_keys selected = distinct known) /\
  (exists req,
     sent (snd (run_jamba_query secrets remote plans_data question
                  plan_names w)) = sent w ++ [req] /\
     map content (messages req) = [system_prompt; prompt]) /\
  Forall (fun n => dict_contains plans_data n = true) known /\
  select_plans plans_data plan_names [] = select_plans plans_data known [].
Proof.
  intros Hk known prompt. split; [|split; [|split]].
  - eexists. split; [apply select_plans_total|].
    unfold dict_keys. rewrite map_map. cbn [fst]. now rewrite map_id.
  - exists (request_for plans_data question plan_names).
    rewrite (run_jamba_query_calls secrets remote plans_data question
               plan_names api_key w Hk).
    split; reflexivity.
  - apply Forall_forall. intros n Hn. now apply filter_In in Hn.
  - rewrite !select_plans_total. unfold known.
    do 3 f_equal. symmetry. apply filter_known_all.
    apply Forall_forall. intros n Hn. now apply filter_In in Hn.
Qed.

Lemma unknown_names_dropped_witness :
  exists req,
    sent (snd (run_jamba_query demo_secrets demo_remote demo_plans
                 (lit "Compare.") [lit "Plan Z"; lit "Plan A"] empty_world))
    = [req] /\
    map content (messages req) =
      [system_prompt;
       lit "Compare. <plan name=" ++ quoted "Plan A" ++
       lit ">A covers X.</plan>"].
Proof.
  exact (proj1 (proj2 (unknown_names_dropped demo_secrets demo_remote
           demo_plans (lit "Compare.") [lit "Plan Z"; lit "Plan A"]
           (lit "secret") empty_world eq_refl))).
Defined.

(** ** Failure of the remote call *)

(** C4, on the code.  When the call of the model raises, nothing catches
    the exception: it leaves [run_jamba_query] and the block under the
    button, after one request and with the spinner as the only element
    added; the "no response" notice is not shown. *)
Theorem remote_failure_propagates
    (secrets : dict str) (remote : str -> request -> result (dict value))
    (printable : char -> bool) (plans_data : dict str)
    (question : str) (selected_plans : list str) (api_key : str)
    (e : exn) (w : world) :
  selected_plans <> [] ->
  dict_get secrets (lit "AI21_API_KEY") = Some api_key ->
  remote api_key (request_for plans_data question selected_plans) = Raise e ->
  compare_plans secrets remote printable plans_data true question
    selected_plans w =
  (Raise e,
   {| opened := opened w;
      sent := sent w ++ [request_for plans_data question selected_plans];
      page := page w ++ [spinner (lit "Analyzing plans...")] |}).
Proof.
  intros Hne Hk Hr. unfold compare_plans.
  destruct selected_plans as [|n l]; [congruence|].
  cbn [List.length Nat.ltb Nat.leb andb]. unfold bind at 1. unfold st at 1.
  unfold bind at 1.
  rewrite (run_jamba_query_calls secrets remote plans_data question (n :: l)
             api_key (shown w [spinner (lit "Analyzing plans...")]) Hk).
  now rewrite Hr.
Qed.

Lemma remote_failure_propagates_witness :
  compare_plans demo_secrets remote_down all_printable demo_plans true
    (lit "Compare.") [lit "Plan A"] empty_world =
  (Raise (RemoteError (lit "connection refused")),
   {| opened := [];
      sent := [request_for demo_plans (lit "Compare.") [lit "Plan A"]];
      page := [spinner (lit "Analyzing plans...")] |}).
Proof.
  apply (remote_failure_propagates demo_secrets remote_down all_printable
           demo_plans (lit "Compare.") [lit "Plan A"] (lit "secret")
           (RemoteError (lit "connection refused")) empty_world).
  - discriminate.
  - reflexivity.
  - reflexivity.
Defined.

(** ** The plan store *)

Section PlanStore.

Variable read_text : str -> option str.

Let path_of (filename : str) : str := path_join data_folder filename.

Let opening (w : world) (paths : list str) : world :=
  {| opened := opened w ++ paths; sent := sent w; page := page w |}.

Lemma load_files_ok (contents : str -> str) (names : list str) :
  (forall f, In f names -> read_text (path_of f) = Some (contents f)) ->
  forall (plans : dict str) (w : world),
    load_files read_text names plans w =
    (Ok (fold_left (fun d f => dict_set d (fst (splitext f)) (contents f))
           names plans),
     opening w (map path_of names)).
Proof.
  induction names as [|f names IH]; intros Hr plans w.
  - cbn. unfold ret, opening. rewrite List.app_nil_r. now destruct w.
  - cbn [load_files fold_left map]. unfold bind, open_read.
    fold (path_of f). rewrite (Hr f (or_introl eq_refl)).
    rewrite IH by (intros g Hg; apply Hr; now right).
    unfold opening; cbn. now rewrite <- app_assoc.
Qed.

Lemma load_files_fails (tried : list str) (f0 : str) (rest : list str) :
  (forall f, In f tried -> read_text (path_of f) <> None) ->
  read_text (path_of f0) = None ->
  forall (plans : dict str) (w : world),
    load_files read_text (tried ++ f0 :: rest) plans w =
    (Raise (OSError (path_of f0)), opening w (map path_of (tried ++ [f0]))).
Proof.
  induction tried as [|f tried IH]; intros Hr H0 plans w.
  - cbn [app load_files map]. unfold bind, open_read. fold (path_of f0).
    now rewrite H0.
  - cbn [app load_files map]. unfold bind, open_read. fold (path_of f).
    destruct (read_text (path_of f)) as [text|] eqn:E.
    + rewrite IH by (try assumption; intros g Hg; apply Hr; now right).
      unfold opening; cbn. now rewrite <- app_assoc.
    + exfalso. now apply (Hr f (or_introl eq_refl)).
Qed.

Lemma first_unreadable (names : list str) (f : str) :
  In f names -> read_text (path_of f) = None ->
  exists tried f0 rest,
    names = tried ++ f0 :: rest /\
    (forall g, In g tried -> read_text (path_of g) <> None) /\
    read_text (path_of f0) = None.
Proof.
  induction names as [|g names IH]; intros Hin Hf; [contradiction|].
  destruct (read_text (path_of g)) as [text|] eqn:E.
  - destruct Hin as [->|Hin]; [congruence|].
    destruct (IH Hin Hf) as (tried & f0 & rest & -> & Ht & H0).
    exists (g :: tried), f0, rest. split; [reflexivity|]. split; [|exact H0].
    intros h [<-|Hh]; [congruence|now apply Ht].
  - exists [], g, names. split; [reflexivity|]. split; [|exact E].
    intros h [].
Qed.

Lemma paths_distinct : NoDup (map path_of filenames).
Proof. apply distinctb_NoDup. vm_compute. reflexivity. Qed.

(** C8. When the five files can be read, [load_data] returns the mapping
    from the five names, each a file name without its extension, to the
    text read from that file, whole and unchanged.  When one of them
    cannot be read, [load_data] raises and returns no mapping; the files
    were opened in order up to the one that failed, each once. *)
Theorem load_data_all_or_nothing (w : world) :
  (forall contents : str -> str,
     (forall f, In f filenames ->
                read_text (path_of f) = Some (contents f)) ->
     load_data read_text w =
     (Ok (map (fun f => (fst (splitext f), contents f)) filenames),
      opening w (map path_of filenames))) /\
  map (fun f => fst (splitext f)) filenames =
    [ lit "HMO Blue Copayment";
      lit "HMO Blue New England Basic Saver";
      lit "HMO Blue Saver";
      lit "HMO Blue Select $2000 Deductible with Copayment";
      lit "Preferred Blue PPO $4500 Deductible" ] /\
  (forall f, In f filenames -> read_text (path_of f) = None ->
     exists tried f0 rest,
       filenames = tried ++ f0 :: rest /\
       read_text (path_of f0) = None /\
       load_data read_text w =
       (Raise (OSError (path_of f0)),
        opening w (map path_of (tried ++ [f0]))) /\
       NoDup (map path_of (tried ++ [f0]))).
Proof.
  split; [|split].
  - intros contents Hr. unfold load_data.
    rewrite (load_files_ok contents filenames Hr). reflexivity.
  - vm_compute. reflexivity.
  - intros f Hin Hf.
    destruct (first_unreadable filenames f Hin Hf)
      as (tried & f0 & rest & E & Ht & H0).
    exists tried, f0, rest. split; [exact E|]. split; [exact H0|].
    split.
    + unfold load_data. rewrite E. now apply load_files_fails.
    + pose proof paths_distinct as Hd. rewrite E in Hd.
      replace (tried ++ f0 :: rest) with ((tried ++ [f0]) ++ rest) in Hd
        by now rewrite <- app_assoc.
      rewrite map_app in Hd. now apply NoDup_app_remove_r in Hd.
Qed.

End PlanStore.

Lemma load_data_all_or_nothing_witness :
  load_data demo_disk empty_world =
    (Ok (map (fun f => (fst (splitext f),
                        lit "text of " ++ path_join data_folder f))
           filenames),
     {| opened := map (path_join data_folder) filenames;
        sent := []; page := [] |}) /\
  load_data disk_without_saver empty_world =
    (Raise (OSError (lit "data/HMO Blue Saver.txt")),
     {| opened := [ lit "data/HMO Blue Copayment.txt";
                    lit "data/HMO Blue New England Basic Saver.txt";
                    lit "data/HMO Blue Saver.txt" ];
        sent := []; page := [] |}).
Proof.
  split.
  - apply (proj1 (load_data_all_or_nothing demo_disk empty_world)
             (fun f => lit "text of " ++ path_join data_folder f)).
    intros f Hf. cbn in Hf.
    repeat (destruct Hf as [<-|Hf]; [vm_compute; reflexivity|]).
    contradiction.
  - destruct (proj2 (proj2
        (load_data_all_or_nothing disk_without_saver empty_world))
        (lit "HMO Blue Saver.txt"))
      as (tried & f0 & rest & E & H0 & Hl & _).
    + cbn. auto.
    + vm_compute. reflexivity.
    + rewrite Hl. clear Hl.
      destruct tried as [|t1 tried]; [inversion E; subst; discriminate H0|].
      destruct tried as [|t2 tried]; [inversion E; subst; discriminate H0|].
      destruct tried as [|t3 tried];
        [inversion E; subst; reflexivity|].
      exfalso.
      destruct tried as [|t4 tried]; [inversion E; subst; discriminate H0|].
      destruct tried as [|t5 tried]; [inversion E; subst; discriminate H0|].
      destruct tried; inversion E.
Defined.

(** ** [json.loads] after [json.dumps] *)

Lemma char_digit_char (d : digit) : char_digit (digit_char d) = Some d.
Proof. destruct d; reflexivity. Qed.

Lemma is_delim_nondigit (c : char) : is_delim c = true -> char_digit c = None.
Proof.
  unfold is_delim. rewrite !orb_true_iff, !N.eqb_eq.
  intros [[->| ->]| ->]; reflexivity.
Qed.

Lemma terminated_nondigit (rest : str) : terminated rest -> nondigit_head rest.
Proof. destruct rest; cbn; [auto|apply is_delim_nondigit]. Qed.

Lemma scan_digits_str (ds : list digit) (rest : str) :
  nondigit_head rest -> scan_digits (digits_str ds ++ rest) = (ds, rest).
Proof.
  intros Hr. induction ds as [|d ds IH]; cbn [digits_str map app].
  - destruct rest as [|c rest]; [reflexivity|]. cbn in *. now rewrite Hr.
  - cbn [scan_digits]. rewrite char_digit_char.
    unfold digits_str in IH. now rewrite IH.
Qed.

Lemma digits_uint_digits (u : Decimal.uint) : digits_uint (uint_digits u) = u.
Proof. induction u; cbn; congruence. Qed.

Lemma to_uint_normal (n : N) : Decimal.unorm (N.to_uint n) = N.to_uint n.
Proof.
  rewrite <- (DecimalN.Unsigned.of_to n) at 2.
  now rewrite DecimalN.Unsigned.to_of.
Qed.

(** The decimal writing of a number is [0] or starts with a digit that is
    not zero. *)
Lemma N_repr_shape (n : N) :
  n = 0 \/
  exists d ds, uint_digits (N.to_uint n) = d :: ds /\ d <> d0.
Proof.
  destruct n as [|p]; [now left|right].
  pose proof (to_uint_normal (Npos p)) as Hn. cbn [N.to_uint] in Hn.
  pose proof (DecimalPos.Unsigned.to_uint_nonzero p) as Hz.
  pose proof (DecimalPos.Unsigned.to_uint_nonnil p) as Hl.
  cbn [N.to_uint].
  destruct (Pos.to_uint p) as [|u|u|u|u|u|u|u|u|u|u] eqn:E;
    try congruence;
    try (cbn [uint_digits]; eexists _, _; split; [reflexivity|discriminate]).
  exfalso. rewrite DecimalFacts.unorm_D0 in Hn.
  unfold Decimal.unorm in Hn.
  destruct (Decimal.nzhead u) eqn:Eu; try discriminate.
  - inversion Hn; subst. now apply Hz.
  - eapply DecimalFacts.nzhead_nonzero; eassumption.
Qed.

Lemma scan_int_part_repr (n : N) (rest : str) :
  nondigit_head rest -> scan_int_part (N_repr n ++ rest) = Some (n, rest).
Proof.
  intros Hr. destruct (N_repr_shape n) as [->|(d & ds & E & Hd)].
  - reflexivity.
  - unfold N_repr. rewrite E. cbn [digits_str map app scan_int_part].
    rewrite char_digit_char.
    change (map digit_char ds) with (digits_str ds).
    rewrite scan_digits_str by assumption.
    rewrite <- E, digits_uint_digits, DecimalN.Unsigned.of_to.
    now destruct d.
Qed.

Lemma N_repr_head (n : N) :
  exists d r, N_repr n = digit_char d :: r.
Proof.
  unfold N_repr. destruct (N_repr_shape n) as [->|(d & ds & E & _)].
  - now exists d0, [].
  - rewrite E. now exists d, (digits_str ds).
Qed.

Lemma scan_frac_terminated (rest : str) : terminated rest -> scan_frac rest = None.
Proof.
  destruct rest as [|c [|c2 r]]; cbn; try reflexivity.
  unfold is_delim. rewrite !orb_true_iff, !N.eqb_eq.
  intros [[->| ->]| ->]; reflexivity.
Qed.

Lemma scan_exp_terminated (rest : str) : terminated rest -> scan_exp rest = None.
Proof.
  destruct rest as [|c r]; cbn; try reflexivity.
  unfold is_delim. rewrite !orb_true_iff, !N.eqb_eq.
  intros [[->| ->]| ->]; reflexivity.
Qed.

Lemma scan_exp_expo (e : expo) (rest : str) :
  nondigit_head rest -> scan_exp (expo_str e ++ rest) = Some (e, rest).
Proof.
  intros Hr. destruct e as [sg d ds]. unfold expo_str. cbn [e_sign e_first e_rest].
  pose proof (scan_digits_str (d :: ds) rest Hr) as Hd.
  cbn [digits_str map app] in Hd.
  destruct sg; cbn [esign_str app scan_exp N.eqb Pos.eqb orb digits_str map].
  - replace (digit_char d =? 43) with false by now destruct d.
    replace (digit_char d =? 45) with false by now destruct d.
    now rewrite Hd.
  - now rewrite Hd.
  - now rewrite Hd.
Qed.

Lemma float_tail_nondigit (t : float_tail) (rest : str) :
  nondigit_head (float_tail_str t ++ rest).
Proof. destruct t; reflexivity. Qed.

Lemma scan_tail (neg : bool) (n : N) (t : float_tail) (rest : str) :
  terminated rest ->
  match scan_frac (float_tail_str t ++ rest) with
  | Some (d, ds, s3) =>
      match scan_exp s3 with
      | Some (e, s4) => Some (PyFloat (FLit neg n (TFrac d ds (Some e))), s4)
      | None => Some (PyFloat (FLit neg n (TFrac d ds None)), s3)
      end
  | None =>
      match scan_exp (float_tail_str t ++ rest) with
      | Some (e, s4) => Some (PyFloat (FLit neg n (TExp e)), s4)
      | None =>
          Some (PyInt (if neg then - Z.of_N n else Z.of_N n)%Z,
                float_tail_str t ++ rest)
      end
  end = Some (PyFloat (FLit neg n t), rest).
Proof.
  intros Hr. pose proof (terminated_nondigit rest Hr) as Hn.
  destruct t as [d ds [e|]|e]; cbn [float_tail_str].
  - cbn [app scan_frac N.eqb Pos.eqb digits_str map].
    rewrite char_digit_char, <- app_assoc.
    change (map digit_char ds) with (digits_str ds).
    rewrite scan_digits_str by (now destruct e).
    now rewrite scan_exp_expo.
  - cbn [app scan_frac N.eqb Pos.eqb digits_str map].
    rewrite char_digit_char, List.app_nil_r.
    change (map digit_char ds) with (digits_str ds).
    rewrite scan_digits_str by assumption.
    now rewrite scan_exp_terminated.
  - rewrite scan_exp_expo by assumption.
    destruct e as [[] d ds]; reflexivity.
Qed.

Lemma scan_sign_digits (n : N) (rest : str) :
  scan_sign (N_repr n ++ rest) = (false, N_repr n ++ rest).
Proof.
  destruct (N_repr_head n) as (d & r & E). rewrite E. now destruct d.
Qed.

Lemma match_number_float (neg : bool) (n : N) (t : float_tail) (rest : str) :
  terminated rest ->
  match_number (float_lit_str neg n t ++ rest) =
  Some (PyFloat (FLit neg n t), rest).
Proof.
  intros Hr. unfold match_number, float_lit_str.
  rewrite <- !app_assoc.
  destruct neg; cbn [app].
  - cbn [scan_sign N.eqb Pos.eqb].
    rewrite (scan_int_part_repr n _ (float_tail_nondigit t rest)).
    now apply scan_tail.
  - rewrite scan_sign_digits.
    rewrite (scan_int_part_repr n _ (float_tail_nondigit t rest)).
    now apply scan_tail.
Qed.

Lemma match_number_int (z : Z) (rest : str) :
  terminated rest ->
  match_number (int_repr z ++ rest) = Some (PyInt z, rest).
Proof.
  intros Hr. pose proof (terminated_nondigit rest Hr) as Hn.
  unfold match_number, int_repr.
  destruct (Z.ltb_spec z 0) as [Hz|Hz]; cbn [app].
  - cbn [scan_sign N.eqb Pos.eqb].
    rewrite scan_int_part_repr by assumption.
    rewrite scan_frac_terminated, scan_exp_terminated by assumption.
    do 3 f_equal. rewrite N2Z.inj_abs_N. lia.
  - rewrite scan_sign_digits.
    rewrite scan_int_part_repr by assumption.
    rewrite scan_frac_terminated, scan_exp_terminated by assumption.
    do 3 f_equal. rewrite N2Z.inj_abs_N. lia.
Qed.

(** A text that starts as a number does is scanned as a number. *)
Lemma scan_once_numeric (fuel : nat) (s : str) :
  numeric_head s -> scan_once (S fuel) s = match_number s.
Proof.
  destruct s as [|c r]; [contradiction|].
  intros [[d ->]|[-> (d & r' & ->)]].
  - destruct d; reflexivity.
  - destruct d; reflexivity.
Qed.

Lemma int_repr_numeric (z : Z) (rest : str) : numeric_head (int_repr z ++ rest).
Proof.
  unfold int_repr. destruct (N_repr_head (Z.abs_N z)) as (d & r & E).
  rewrite E. destruct (z <? 0)%Z; cbn; eauto.
Qed.

Lemma float_lit_numeric (neg : bool) (n : N) (t : float_tail) (rest : str) :
  numeric_head (float_lit_str neg n t ++ rest).
Proof.
  unfold float_lit_str. destruct (N_repr_head n) as (d & r & E).
  rewrite E. destruct neg; cbn; eauto.
Qed.

(** *** Strings *)

Lemma forall_below (n : nat) (P : N -> bool) :
  forallb P (map N.of_nat (seq 0 n)) = true ->
  forall x, x < N.of_nat n -> P x = true.
Proof.
  intros H x Hx. rewrite forallb_forall in H. apply H.
  apply in_map_iff. exists (N.to_nat x).
  split; [apply N2Nat.id|apply in_seq; lia].
Qed.

Lemma hex_val_digit (k : N) : k < 16 -> hex_val (hex_digit k) = Some k.
Proof.
  intros Hk.
  pose proof (forall_below 16
    (fun x => match hex_val (hex_digit x) with
              | Some y => y =? x
              | None => false
              end) ltac:(vm_compute; reflexivity) k Hk) as H.
  cbv beta in H.
  destruct (hex_val (hex_digit k)) as [y|]; [|discriminate].
  apply N.eqb_eq in H. now subst.
Qed.

Lemma decode_hex4_hex4 (n : N) :
  n < 65536 ->
  decode_hex4 (hex_digit (N.shiftr n 12 mod 16))
    (hex_digit (N.shiftr n 8 mod 16)) (hex_digit (N.shiftr n 4 mod 16))
    (hex_digit (n mod 16)) = Some n.
Proof.
  intros Hn. unfold decode_hex4.
  rewrite !hex_val_digit by (apply N.mod_lt; discriminate).
  f_equal. rewrite !N.shiftr_div_pow2.
  change (2 ^ 12) with 4096. change (2 ^ 8) with 256. change (2 ^ 4) with 16.
  zify. Z.to_euclidean_division_equations. lia.
Qed.

Lemma land_1023_bound (x : N) : N.land x 1023 < 1024.
Proof.
  change 1023 with (N.ones 10). rewrite N.land_ones.
  apply N.mod_lt. discriminate.
Qed.

Lemma high_of_spec (c : char) :
  high_of c < 65536 /\ is_high_surrogate (high_of c) = true /\
  is_low_surrogate (high_of c) = false.
Proof.
  unfold high_of.
  pose proof (forall_below 1024
    (fun y => let h := N.lor 55296 y in
              (h <? 65536) && is_high_surrogate h &&
              negb (is_low_surrogate h))
    ltac:(vm_compute; reflexivity) _
    (land_1023_bound (N.shiftr (c - 65536) 10))) as H.
  cbv beta zeta in H.
  rewrite !andb_true_iff, negb_true_iff, N.ltb_lt in H. tauto.
Qed.

Lemma low_of_spec (c : char) :
  low_of c < 65536 /\ is_low_surrogate (low_of c) = true.
Proof.
  unfold low_of.
  pose proof (forall_below 1024
    (fun y => let h := N.lor 56320 y in
              (h <? 65536) && is_low_surrogate h)
    ltac:(vm_compute; reflexivity) _
    (land_1023_bound (c - 65536))) as H.
  cbv beta zeta in H.
  rewrite !andb_true_iff, N.ltb_lt in H. tauto.
Qed.

Lemma scanstring_u (h1 h2 h3 h4 : char) (t : str) :
  scanstring (92 :: 117 :: h1 :: h2 :: h3 :: h4 :: t) =
  match decode_hex4 h1 h2 h3 h4 with
  | None => None
  | Some uni =>
      if is_high_surrogate uni then lookahead uni t
      else cons_char uni (scanstring t)
  end.
Proof. reflexivity. Qed.

Lemma scanstring_escape (n : N) (t : str) :
  n < 65536 ->
  scanstring (u_escape n ++ t) =
  if is_high_surrogate n then lookahead n t else cons_char n (scanstring t).
Proof.
  intros Hn. unfold u_escape, hex4. cbn [app].
  change backslash with 92.
  now rewrite scanstring_u, decode_hex4_hex4.
Qed.

Lemma scanstring_plain (c : char) (t : str) :
  c <> 34 -> c <> 92 -> 32 <= c ->
  scanstring (c :: t) = cons_char c (scanstring t).
Proof.
  intros H1 H2 H3. cbn [scanstring].
  apply N.eqb_neq in H1, H2. rewrite H1, H2.
  now replace (c <? 32) with false by (symmetry; apply N.ltb_ge; lia).
Qed.

Lemma scanstring_short (e x : char) (t : str) :
  e <> 117 -> unescape e = Some x ->
  scanstring (92 :: e :: t) = cons_char x (scanstring t).
Proof.
  intros H1 H2. cbn [scanstring N.eqb Pos.eqb].
  apply N.eqb_neq in H1. now rewrite H1, H2.
Qed.

Lemma lookahead_plain (uni : N) (a : char) (t : str) :
  a <> 92 -> lookahead uni (a :: t) = cons_char uni (scanstring (a :: t)).
Proof.
  intros H. apply N.eqb_neq in H. unfold lookahead.
  destruct t; [reflexivity|]. now rewrite H.
Qed.

Lemma lookahead_short (uni : N) (e : char) (t : str) :
  e <> 117 ->
  lookahead uni (92 :: e :: t) = cons_char uni (scanstring (92 :: e :: t)).
Proof.
  intros H. apply N.eqb_neq in H. unfold lookahead.
  cbn [N.eqb Pos.eqb andb]. now rewrite H.
Qed.

Lemma lookahead_escape (uni m : N) (t : str) :
  m < 65536 ->
  lookahead uni (u_escape m ++ t) =
  if is_low_surrogate m
  then cons_char (join_surrogates uni m) (scanstring t)
  else cons_char uni (scanstring (u_escape m ++ t)).
Proof.
  intros Hm. unfold lookahead, u_escape, hex4. cbn [app].
  change backslash with 92. cbn [N.eqb Pos.eqb andb].
  now rewrite decode_hex4_hex4.
Qed.

Lemma encode_char_encoding (c : char) : encoding c (encode_char c).
Proof.
  unfold encode_char.
  repeat match goal with
  | |- context [N.eqb c ?k] =>
      destruct (N.eqb_spec c k) as [->|?];
        [apply enc_short; [discriminate|reflexivity|lia]|]
  end.
  destruct (N.leb_spec 32 c); destruct (N.leb_spec c 126); cbn [andb];
    try (apply enc_plain; assumption).
  all: destruct (N.ltb_spec c 65536);
    [now apply enc_escape|now apply enc_pair].
Qed.

Lemma low_surrogate_range (c : char) :
  is_low_surrogate c = true -> 56320 <= c <= 57343.
Proof. unfold is_low_surrogate. rewrite andb_true_iff, !N.leb_le. tauto. Qed.

Lemma high_surrogate_range (c : char) :
  is_high_surrogate c = true -> 55296 <= c <= 56319.
Proof. unfold is_high_surrogate. rewrite andb_true_iff, !N.leb_le. tauto. Qed.

Lemma not_low_surrogate (c : char) :
  c <= 126 \/ 65536 <= c -> is_low_surrogate c = false.
Proof.
  intros H. destruct (is_low_surrogate c) eqn:E; [|reflexivity].
  apply low_surrogate_range in E. lia.
Qed.

Lemma not_high_surrogate (c : char) :
  c <= 126 -> is_high_surrogate c = false.
Proof.
  intros H. destruct (is_high_surrogate c) eqn:E; [|reflexivity].
  apply high_surrogate_range in E. lia.
Qed.

Lemma norm_str_low (c : char) (r : str) :
  c < 65536 -> is_high_surrogate c = false ->
  norm_str (c :: r) = c :: norm_str r.
Proof.
  intros H1 H2. cbn [norm_str]. rewrite H2.
  now replace (65536 <=? c) with false by (symmetry; apply N.leb_gt; lia).
Qed.

Lemma norm_str_high (c c2 : char) (r : str) :
  is_high_surrogate c = true ->
  norm_str (c :: c2 :: r) =
  if is_low_surrogate c2 then join_surrogates c c2 :: norm_str r
  else c :: norm_str (c2 :: r).
Proof.
  intros H. apply high_surrogate_range in H as Hc.
  cbn [norm_str]. rewrite H.
  now replace (65536 <=? c) with false by (symmetry; apply N.leb_gt; lia).
Qed.

Lemma scanstring_encoded_upto (n : nat) :
  forall s, (List.length s <= n)%nat ->
  forall rest,
    scanstring (flat_map encode_char s ++ dquote :: rest) =
    Some (norm_str s, rest).
Proof.
  induction n as [|n IH]; intros s Hl rest.
  { destruct s; [reflexivity|cbn in Hl; lia]. }
  destruct s as [|c r]; [reflexivity|]. cbn [List.length] in Hl.
  assert (Hr : scanstring (flat_map encode_char r ++ dquote :: rest) =
               Some (norm_str r, rest)) by (apply IH; lia).
  cbn [flat_map]. rewrite <- app_assoc.
  destruct (encode_char_encoding c) as [H1 H2 H3 H4|e H1 H2 H3|H1|H1].
  - cbn [app]. rewrite scanstring_plain, Hr by assumption.
    rewrite norm_str_low; [reflexivity|lia|now apply not_high_surrogate].
  - cbn [app]. rewrite (scanstring_short e c) by assumption. rewrite Hr.
    rewrite norm_str_low; [reflexivity|lia|apply not_high_surrogate; lia].
  - rewrite scanstring_escape by assumption.
    destruct (is_high_surrogate c) eqn:Hh.
    2:{ rewrite Hr. now rewrite norm_str_low. }
    destruct r as [|c2 r'].
    { cbn [flat_map app]. rewrite lookahead_plain by discriminate.
      cbn [scanstring N.eqb Pos.eqb cons_char dquote norm_str].
      rewrite Hh.
      now replace (65536 <=? c) with false by (symmetry; apply N.leb_gt; lia). }
    rewrite norm_str_high by assumption.
    cbn [flat_map] in *. rewrite <- app_assoc in *.
    assert (Hr' : scanstring (flat_map encode_char r' ++ dquote :: rest) =
                  Some (norm_str r', rest)) by (apply IH; cbn in Hl; lia).
    revert Hr.
    destruct (encode_char_encoding c2) as [G1 G2 G3 G4|e G1 G2 G3|G1|G1];
      intros Hr.
    + cbn [app] in *. rewrite lookahead_plain, Hr by assumption.
      rewrite not_low_surrogate by (left; lia). reflexivity.
    + cbn [app] in *. rewrite lookahead_short, Hr by assumption.
      rewrite not_low_surrogate by (left; lia). reflexivity.
    + rewrite lookahead_escape by assumption.
      destruct (is_low_surrogate c2); [now rewrite Hr'|now rewrite Hr].
    + destruct (high_of_spec c2) as (B1 & B2 & B3).
      rewrite <- app_assoc in *.
      rewrite lookahead_escape by assumption. rewrite B3, Hr.
      rewrite not_low_surrogate by (right; lia). reflexivity.
  - destruct (high_of_spec c) as (B1 & B2 & B3).
    destruct (low_of_spec c) as (L1 & L2).
    rewrite <- app_assoc.
    rewrite scanstring_escape by assumption. rewrite B2.
    rewrite lookahead_escape by assumption. rewrite L2, Hr.
    cbn [norm_str cons_char].
    now replace (65536 <=? c) with true by (symmetry; apply N.leb_le; lia).
Qed.

Lemma scanstring_encoded (s rest : str) :
  scanstring (flat_map encode_char s ++ dquote :: rest) =
  Some (norm_str s, rest).
Proof. now apply (scanstring_encoded_upto (List.length s)). Qed.

(** *** Terms *)

Section ValueInduction.

Variable P : value -> Prop.

Hypothesis HNone : P PyNone.
Hypothesis HBool : forall b, P (PyBool b).
Hypothesis HInt : forall z, P (PyInt z).
Hypothesis HFloat : forall f, P (PyFloat f).
Hypothesis HStr : forall s, P (PyStr s).
Hypothesis HList : forall l, Forall P l -> P (PyList l).
Hypothesis HDict :
forall d, Forall (fun kv : str * value => P (snd kv)) d -> P (PyDict d).

(** Induction on a value, through the lists and the mappings in it. *)
Lemma value_induction (v : value) : P v.
Proof.
  revert v. fix IH 1. intros [|b|z|f|s|l|d].
  - exact HNone.
  - exact (HBool b).
  - exact (HInt z).
  - exact (HFloat f).
  - exact (HStr s).
  - apply HList.
    induction l as [|x l IHl]; constructor; [apply IH|exact IHl].
  - apply HDict.
    induction d as [|[k x] d IHd]; constructor; [apply IH|exact IHd].
Qed.

End ValueInduction.

Lemma dumps_list (l : list value) :
  dumps (PyList l) = 91 :: join [44; 32] (map dumps l) ++ [93].
Proof. reflexivity. Qed.

Lemma dumps_dict (d : list (str * value)) :
  dumps (PyDict d) = 123 :: join [44; 32] (map member_text d) ++ [125].
Proof. reflexivity. Qed.

Lemma join_cons2 (sep p q : str) (rest : list str) :
  join sep (p :: q :: rest) = p ++ sep ++ join sep (q :: rest).
Proof. reflexivity. Qed.

Lemma digit_opening (d : digit) : opening_char (digit_char d).
Proof. destruct d; repeat split; discriminate. Qed.

Lemma dumps_head (v : value) :
  exists c t, dumps v = c :: t /\ opening_char c.
Proof.
  destruct v as [|[]|z|[neg n t| |[]]|s|l|d];
    try (eexists _, _; split; [reflexivity|repeat split; discriminate]).
  - cbn [dumps]. unfold int_repr.
    destruct (N_repr_head (Z.abs_N z)) as (d & r & E). rewrite E.
    destruct (z <? 0)%Z.
    + eexists _, _; split; [reflexivity|repeat split; discriminate].
    + eexists _, _; split; [reflexivity|apply digit_opening].
  - cbn [dumps float_json]. unfold float_lit_str.
    destruct (N_repr_head n) as (d & r & E). rewrite E.
    destruct neg.
    + eexists _, _; split; [reflexivity|repeat split; discriminate].
    + eexists _, _; split; [reflexivity|apply digit_opening].
Qed.

Lemma skip_ws_opening (c : char) (t : str) :
  is_ws c = false -> skip_ws (c :: t) = c :: t.
Proof. intros H. cbn [skip_ws]. now rewrite H. Qed.

Lemma skip_ws_dumps (v : value) (rest : str) :
  skip_ws (dumps v ++ rest) = dumps v ++ rest.
Proof.
  destruct (dumps_head v) as (c & t & E & Hc & _). rewrite E.
  now apply skip_ws_opening.
Qed.

Lemma dumps_length (v : value) : (1 <= List.length (dumps v))%nat.
Proof.
  destruct (dumps_head v) as (c & t & E & _). rewrite E. cbn. lia.
Qed.

Lemma scan_atom (v : value) :
  match v with PyStr _ | PyList _ | PyDict _ => False | _ => True end ->
  scans_back v.
Proof.
  intros Hv fuel rest Hf Hr. pose proof (dumps_length v).
  destruct fuel as [|fuel]; [lia|].
  destruct v as [|[]|z|[neg n t| |[]]|s|l|d]; try contradiction;
    try reflexivity.
  - cbn [dumps norm].
    rewrite scan_once_numeric by apply int_repr_numeric.
    now apply match_number_int.
  - cbn [dumps norm float_json].
    rewrite scan_once_numeric by apply float_lit_numeric.
    now apply match_number_float.
Qed.

Lemma scan_str (s : str) : scans_back (PyStr s).
Proof.
  intros fuel rest Hf Hr. pose proof (dumps_length (PyStr s)).
  destruct fuel as [|fuel]; [lia|].
  cbn [dumps norm]. unfold encode_basestring_ascii.
  cbn [app]. rewrite <- app_assoc. cbn [app scan_once].
  change (dquote =? 34) with true. cbv iota.
  now rewrite scanstring_encoded.
Qed.

Lemma parse_elements_dumped (l : list value) :
  Forall scans_back l -> l <> [] ->
  forall (fuel : nat) (rest : str),
    (2 * List.length (join [44%N; 32%N] (map dumps l)) + 1 <= fuel)%nat ->
    parse_elements fuel (join [44; 32] (map dumps l) ++ 93 :: rest) =
    Some (map norm l, rest).
Proof.
  induction 1 as [|x l Hx Hl IH]; intros Hne fuel rest Hf; [congruence|].
  destruct fuel as [|fuel]; [lia|].
  destruct l as [|y l].
  - cbn [map join] in *. cbn [parse_elements].
    rewrite Hx by (cbn; auto; lia). cbn. reflexivity.
  - cbn [map] in *. rewrite join_cons2 in *. rewrite length_app in Hf.
    cbn [app List.length] in Hf. rewrite <- !app_assoc. cbn [parse_elements app].
    rewrite Hx by (cbn; auto; lia).
    cbn [skip_ws is_ws N.eqb Pos.eqb orb].
    assert (E : skip_ws (join [44; 32] (dumps y :: map dumps l) ++ 93 :: rest)
                = join [44; 32] (dumps y :: map dumps l) ++ 93 :: rest).
    { destruct (dumps_head y) as (c & t & E & Hc & _).
      destruct l; cbn [map join]; rewrite E; cbn [app];
        now apply skip_ws_opening. }
    rewrite E, IH by (try discriminate; lia). reflexivity.
Qed.

Lemma scan_list (l : list value) : Forall scans_back l -> scans_back (PyList l).
Proof.
  intros Hl fuel rest Hf Hr. rewrite dumps_list in *.
  cbn [List.length] in Hf. rewrite length_app in Hf. cbn [List.length] in Hf.
  destruct fuel as [|fuel]; [lia|].
  cbn [app scan_once N.eqb Pos.eqb]. rewrite <- app_assoc. cbn [app].
  destruct l as [|x l]; [reflexivity|].
  assert (E : exists c t,
             join [44; 32] (map dumps (x :: l)) ++ 93 :: rest = c :: t /\
             opening_char c).
  { destruct (dumps_head x) as (c & t & E & Hc).
    destruct l; cbn [map join]; rewrite E; cbn [app]; eauto. }
  destruct E as (c & t & E & Hw & H93 & _).
  pose proof (parse_elements_dumped (x :: l) Hl ltac:(discriminate) fuel rest
                ltac:(lia)) as Hp.
  rewrite E in *. rewrite skip_ws_opening by assumption.
  apply N.eqb_neq in H93. rewrite H93, Hp. reflexivity.
Qed.

Lemma terminated_skip_ws (tail : str) : terminated tail -> skip_ws tail = tail.
Proof.
  destruct tail as [|c t]; [reflexivity|]. cbn [terminated].
  unfold is_delim. rewrite !orb_true_iff, !N.eqb_eq.
  intros [[->| ->]| ->]; reflexivity.
Qed.

Lemma member_text_unfold (k : str) (x : value) (tail : str) :
  member_text (k, x) ++ tail =
  34 :: flat_map encode_char k ++ dquote :: 58 :: 32 :: dumps x ++ tail.
Proof.
  unfold member_text, encode_basestring_ascii. cbn [app].
  now rewrite <- !app_assoc.
Qed.

Lemma parse_member (k : str) (x : value) (tail : str) (fuel : nat) :
  scans_back x -> (2 * List.length (dumps x) <= fuel)%nat ->
  terminated tail ->
  parse_members (S fuel) (member_text (k, x) ++ tail) =
  match tail with
  | [] => None
  | c3 :: r4 =>
      if c3 =? 125 then Some ([(norm_str k, norm x)], r4)
      else if c3 =? 44 then
        match parse_members fuel (skip_ws r4) with
        | Some (pairs, rest) => Some ((norm_str k, norm x) :: pairs, rest)
        | None => None
        end
      else None
  end.
Proof.
  intros Hx Hf Ht. rewrite member_text_unfold.
  cbn [parse_members N.eqb Pos.eqb]. rewrite scanstring_encoded.
  cbn [skip_ws is_ws N.eqb Pos.eqb orb].
  rewrite skip_ws_dumps, Hx by assumption.
  now rewrite terminated_skip_ws.
Qed.

Lemma member_text_length (k : str) (x : value) :
  (List.length (dumps x) + 4 <= List.length (member_text (k, x)))%nat.
Proof.
  unfold member_text, encode_basestring_ascii.
  cbn [app List.length]. rewrite !length_app. cbn [List.length]. lia.
Qed.

Lemma parse_members_dumped (d : list (str * value)) :
  Forall (fun kv : str * value => scans_back (snd kv)) d -> d <> [] ->
  forall (fuel : nat) (rest : str),
    (2 * List.length (join [44%N; 32%N] (map member_text d)) + 1 <= fuel)%nat ->
    parse_members fuel (join [44; 32] (map member_text d) ++ 125 :: rest) =
    Some (map norm_pair d, rest).
Proof.
  induction 1 as [|[k x] d Hx Hd IH]; intros Hne fuel rest Hf; [congruence|].
  destruct fuel as [|fuel]; [lia|]. cbn [snd] in Hx.
  pose proof (member_text_length k x) as Hm.
  destruct d as [|[k2 y] d].
  - cbn [map join] in *.
    rewrite parse_member by (cbn; auto; lia). reflexivity.
  - cbn [map] in *. rewrite join_cons2 in *. rewrite length_app in Hf.
    cbn [app List.length] in Hf. rewrite <- !app_assoc. cbn [app].
    rewrite parse_member by (cbn; auto; lia).
    cbn [skip_ws is_ws N.eqb Pos.eqb orb].
    assert (E : skip_ws (join [44; 32] (member_text (k2, y) :: map member_text d)
                         ++ 125 :: rest)
                = join [44; 32] (member_text (k2, y) :: map member_text d)
                  ++ 125 :: rest).
    { destruct d; cbn [map join]; rewrite ?app_assoc;
        rewrite <- ?app_assoc; rewrite member_text_unfold;
        now apply skip_ws_opening. }
    rewrite E, IH by (try discriminate; lia). reflexivity.
Qed.

Lemma scan_dict (d : list (str * value)) :
  Forall (fun kv : str * value => scans_back (snd kv)) d ->
  scans_back (PyDict d).
Proof.
  intros Hd fuel rest Hf Hr. rewrite dumps_dict in *.
  cbn [List.length] in Hf. rewrite length_app in Hf. cbn [List.length] in Hf.
  destruct fuel as [|fuel]; [lia|].
  cbn [app scan_once N.eqb Pos.eqb]. rewrite <- app_assoc. cbn [app].
  destruct d as [|[k x] d]; [reflexivity|].
  assert (E : exists t,
             join [44; 32] (map member_text ((k, x) :: d)) ++ 125 :: rest
             = 34 :: t).
  { destruct d; cbn [map join]; rewrite <- ?app_assoc;
      rewrite member_text_unfold; eauto. }
  destruct E as (t & E).
  pose proof (parse_members_dumped ((k, x) :: d) Hd ltac:(discriminate)
                fuel rest ltac:(lia)) as Hp.
  rewrite E in *. cbn [skip_ws is_ws N.eqb Pos.eqb orb].
  rewrite Hp. reflexivity.
Qed.

(** Every term [json.dumps] writes is scanned back, given fuel for twice
    its length. *)
Lemma scan_once_dumps (v : value) : scans_back v.
Proof.
  induction v using value_induction;
    [apply scan_atom; exact I ..|apply scan_str|now apply scan_list
    |now apply scan_dict].
Qed.

(** [json.loads] accepts what [json.dumps] writes. *)
Lemma loads_dumps (v : value) : loads (dumps v) = Some (norm v).
Proof.
  unfold loads, scan_fuel.
  rewrite <- (List.app_nil_r (dumps v)) at 2.
  rewrite skip_ws_dumps.
  rewrite scan_once_dumps by first [lia|exact I].
  reflexivity.
Qed.

Lemma dumps_nonempty (v : value) : dumps v <> [].
Proof. destruct (dumps_head v) as (c & t & E & _). now rewrite E. Qed.

(** ** The returned string *)

(** C10. When [run_jamba_query] returns, what it returns is [json.dumps] of
    the response's dict: a string that is not empty and that [json.loads]
    accepts.  For such a string the renderer shows neither the "no
    response" notice nor the parse error notice. *)
Theorem returned_string_is_json
    (secrets : dict str) (remote : str -> request -> result (dict value))
    (printable : char -> bool) (plans_data : dict str)
    (question : str) (plan_names : list str) (w w' : world)
    (jamba_response : str) :
  run_jamba_query secrets remote plans_data question plan_names w =
    (Ok jamba_response, w') ->
  (exists response, jamba_response = dumps (PyDict response)) /\
  jamba_response <> [] /\
  (exists parsed, loads jamba_response = Some parsed) /\
  forall w1, exists added,
    page (snd (show_response printable jamba_response w1)) = page w1 ++ added /\
    ~ In (error no_response_notice) added /\
    ~ In (error parse_error_notice) added.
Proof.
  intros Hrun.
  assert (Hd : exists response, jamba_response = dumps (PyDict response)).
  { destruct (dict_get secrets (lit "AI21_API_KEY")) as [api_key|] eqn:Hk.
    - rewrite (run_jamba_query_calls secrets remote plans_data question
                 plan_names api_key w Hk) in Hrun.
      destruct (remote api_key _) as [response|e]; inversion Hrun.
      eexists; reflexivity.
    - unfold run_jamba_query, bind, lift, dict_getitem in Hrun.
      rewrite Hk in Hrun. discriminate. }
  destruct Hd as [response ->].
  pose proof (dumps_nonempty (PyDict response)) as Hne.
  pose proof (loads_dumps (PyDict response)) as Hl.
  split; [now exists response|]. split; [exact Hne|].
  split; [eexists; exact Hl|]. intros w1.
  rewrite (show_response_parsed printable _ _ w1 Hne Hl).
  destruct (extract_message printable _) as [message|e].
  - destruct (escape message) as [escaped|e]; cbn [snd shown page];
      eexists; (split; [reflexivity|]); cbn [In]; intuition discriminate.
  - exists []. rewrite List.app_nil_r. cbn [In]. intuition.
Qed.

Lemma returned_string_is_json_witness :
  (exists response,
     dumps (PyDict demo_response) = dumps (PyDict response)) /\
  dumps (PyDict demo_response) <> [] /\
  (exists parsed, loads (dumps (PyDict demo_response)) = Some parsed) /\
  forall w1, exists added,
    page (snd (show_response all_printable (dumps (PyDict demo_response)) w1))
    = page w1 ++ added /\
    ~ In (error no_response_notice) added /\
    ~ In (error parse_error_notice) added.
Proof.
  exact (returned_string_is_json demo_secrets demo_remote all_printable
           demo_plans (lit "Compare.") [lit "Plan A"] empty_world _ _
           eq_refl).
Defined.

(** ** The fuel of the scanner

    Every successful scan passes at least one character; so the fuel
    [loads] gives the scanner is never used up, and [None] from [loads]
    always is a parse error. *)

Lemma skip_ws_length (s : str) : (List.length (skip_ws s) <= List.length s)%nat.
Proof.
  induction s as [|c s IH]; cbn [skip_ws]; [lia|].
  destruct (is_ws c); cbn [List.length] in *; lia.
Qed.

Lemma cons_char_inv (c : char) (o : option (str * str)) (x r : str) :
  cons_char c o = Some (x, r) -> exists x', o = Some (x', r).
Proof.
  destruct o as [[x' r']|]; cbn; intros H; inversion H; eauto.
Qed.

Lemma scanstring_length_upto (n : nat) :
  forall s x r, (List.length s <= n)%nat ->
  scanstring s = Some (x, r) -> (List.length r < List.length s)%nat.
Proof.
  induction n as [|n IH]; intros s x r Hl H.
  { destruct s; [discriminate|cbn in Hl; lia]. }
  destruct s as [|c s1]; [discriminate|].
  cbn [scanstring] in H. cbn [List.length] in *.
  repeat match type of H with
  | cons_char _ (scanstring ?X) = Some _ =>
      apply cons_char_inv in H; destruct H as [? H];
      apply IH in H; cbn [List.length] in *; lia
  | Some _ = Some _ => inversion H; subst; cbn [List.length]; lia
  | None = Some _ => discriminate
  | context [match ?t with _ => _ end] =>
      destruct t eqn:?; cbn [List.length] in *
  end.
Qed.

Lemma scanstring_length (s x r : str) :
  scanstring s = Some (x, r) -> (List.length r < List.length s)%nat.
Proof. now apply (scanstring_length_upto (List.length s)). Qed.

Lemma scan_digits_length (s : str) :
  (List.length (snd (scan_digits s)) <= List.length s)%nat.
Proof.
  induction s as [|c s IH]; cbn [scan_digits]; [cbn; lia|].
  destruct (char_digit c); [|cbn; lia].
  destruct (scan_digits s); cbn [snd List.length] in *; lia.
Qed.

Lemma scan_sign_length (s r : str) (b : bool) :
  scan_sign s = (b, r) -> (List.length r <= List.length s)%nat.
Proof.
  destruct s as [|c s]; cbn [scan_sign].
  - intros H; inversion H; lia.
  - destruct (c =? 45); intros H; inversion H; cbn; lia.
Qed.

Lemma scan_int_part_length (s r : str) (n : N) :
  scan_int_part s = Some (n, r) -> (List.length r < List.length s)%nat.
Proof.
  destruct s as [|c s]; cbn [scan_int_part]; [discriminate|].
  pose proof (scan_digits_length s) as Hd.
  destruct (char_digit c) as [d|]; [|discriminate].
  destruct (scan_digits s) as [ds r'].
  destruct d; intros H; inversion H; subst; cbn [snd List.length] in *; lia.
Qed.

Lemma scan_frac_length (s r : str) (d : digit) (ds : list digit) :
  scan_frac s = Some (d, ds, r) -> (List.length r < List.length s)%nat.
Proof.
  destruct s as [|c [|c2 s]]; cbn [scan_frac]; try discriminate.
  pose proof (scan_digits_length s) as Hd.
  destruct (c =? 46); [|discriminate].
  destruct (char_digit c2); [|discriminate].
  destruct (scan_digits s) as [ds' r'].
  intros H; inversion H; subst; cbn [snd List.length] in *; lia.
Qed.

Lemma scan_exp_length (s r : str) (e : expo) :
  scan_exp s = Some (e, r) -> (List.length r < List.length s)%nat.
Proof.
  destruct s as [|c s]; cbn [scan_exp]; [discriminate|].
  destruct ((c =? 101) || (c =? 69)); [|discriminate].
  destruct s as [|x s'].
  - cbn. discriminate.
  - pose proof (scan_digits_length (x :: s')) as H0.
    pose proof (scan_digits_length s') as H1.
    destruct (x =? 43); [|destruct (x =? 45)];
      match goal with
      | |- context [scan_digits ?t] => destruct (scan_digits t) as [[|d ds] r']
      end; intros H; inversion H; subst; cbn [snd List.length] in *; lia.
Qed.

Lemma match_number_length (s r : str) (v : value) :
  match_number s = Some (v, r) -> (List.length r < List.length s)%nat.
Proof.
  unfold match_number.
  destruct (scan_sign s) as [neg s1] eqn:E0. apply scan_sign_length in E0.
  destruct (scan_int_part s1) as [[n s2]|] eqn:E1; [|discriminate].
  apply scan_int_part_length in E1.
  destruct (scan_frac s2) as [[[d ds] s3]|] eqn:E2.
  - apply scan_frac_length in E2.
    destruct (scan_exp s3) as [[e s4]|] eqn:E3.
    + apply scan_exp_length in E3. intros H; inversion H; subst; lia.
    + intros H; inversion H; subst; lia.
  - destruct (scan_exp s2) as [[e s4]|] eqn:E3.
    + apply scan_exp_length in E3. intros H; inversion H; subst; lia.
    + intros H; inversion H; subst; lia.
Qed.

Lemma startswith_length (p s : str) :
  startswith p s = true -> (List.length p <= List.length s)%nat.
Proof.
  revert s; induction p as [|a p IH]; intros [|b s]; cbn;
    try discriminate; try lia.
  rewrite andb_true_iff. intros [_ H]. apply IH in H. lia.
Qed.

Lemma strip_prefix_length (p s r : str) :
  p <> [] -> strip_prefix p s = Some r ->
  (List.length r < List.length s)%nat.
Proof.
  intros Hp. unfold strip_prefix.
  destruct (startswith p s) eqn:E; [|discriminate].
  apply startswith_length in E. intros H; inversion H; subst.
  rewrite length_skipn. destruct p; [congruence|cbn in *; lia].
Qed.

Lemma scan_constant_length (s r : str) (v : value) :
  scan_constant s = Some (v, r) -> (List.length r < List.length s)%nat.
Proof.
  unfold scan_constant.
  repeat match goal with
  | |- context [strip_prefix ?p s] =>
      let E := fresh "E" in
      destruct (strip_prefix p s) eqn:E;
        [apply strip_prefix_length in E; [|discriminate];
         intros H; inversion H; subst; exact E|]
  end.
  discriminate.
Qed.

Ltac note_skip_ws :=
  repeat match goal with
  | H : skip_ws ?X = _ |- _ =>
      let L := fresh "L" in
      pose proof (skip_ws_length X) as L; rewrite H in L; clear H
  end;
  repeat match goal with
  | H : context [skip_ws ?X] |- _ =>
      lazymatch goal with
      | _ : (List.length (skip_ws X) <= List.length X)%nat |- _ => fail
      | _ => pose proof (skip_ws_length X)
      end
  end.

Lemma scan_consumes (fuel : nat) : consumes fuel.
Proof.
  induction fuel as [|f (IHs & IHm & IHe)];
    [repeat split; intros; discriminate|].
  repeat split; intros s x r H;
    [destruct s as [|c r0]; [discriminate|]
    |destruct s as [|c r0]; [discriminate|]|];
    cbn [scan_once parse_members parse_elements] in H;
    repeat match goal with
    | H : Some _ = Some _ |- _ => inversion H; subst; clear H
    | H : None = Some _ |- _ => discriminate
    | H : scanstring _ = Some _ |- _ => apply scanstring_length in H
    | H : scan_once f _ = Some _ |- _ => apply IHs in H
    | H : parse_members f _ = Some _ |- _ => apply IHm in H
    | H : parse_elements f _ = Some _ |- _ => apply IHe in H
    | H : scan_constant _ = Some _ |- _ => apply scan_constant_length in H
    | H : match_number _ = Some _ |- _ => apply match_number_length in H
    | H : context [match ?t with _ => _ end] |- _ => destruct t eqn:?
    end;
    note_skip_ws; cbn [List.length] in *; lia.
Qed.

Ltac length_facts := note_skip_ws; cbn [List.length] in *; lia.

Lemma scan_adequate (fuel' : nat) : adequate fuel'.
Proof.
  induction fuel' as [|f' (IHs & IHm & IHe)];
    [repeat split; intros; discriminate|].
  destruct (scan_consumes f') as (Cs & Cm & Ce).
  repeat split; intros s r [|f0] H Hf; try lia;
    [destruct s as [|c r0]; [discriminate|]
    |destruct s as [|c r0]; [discriminate|]|];
    cbn [scan_once parse_members parse_elements] in H |- *;
    repeat match type of H with
    | context [match ?t with _ => _ end] =>
        lazymatch t with
        | scan_once f' ?X =>
            let E := fresh "E" in
            destruct t as [[? ?]|] eqn:E; [|discriminate];
            pose proof (Cs _ _ _ E);
            rewrite (IHs _ _ f0 E) by length_facts
        | parse_members f' ?X =>
            let E := fresh "E" in
            destruct t as [[? ?]|] eqn:E; [|discriminate];
            pose proof (Cm _ _ _ E);
            rewrite (IHm _ _ f0 E) by length_facts
        | parse_elements f' ?X =>
            let E := fresh "E" in
            destruct t as [[? ?]|] eqn:E; [|discriminate];
            pose proof (Ce _ _ _ E);
            rewrite (IHe _ _ f0 E) by length_facts
        | scanstring ?X =>
            let E := fresh "E" in
            destruct t as [[? ?]|] eqn:E; [|discriminate];
            pose proof (scanstring_length _ _ _ E)
        | _ => destruct t eqn:?
        end
    end; try discriminate; exact H.
Qed.

(** The result of the scanner does not depend on the fuel it is given, once
    this is above twice the length of the text. *)
Lemma scan_once_fuel (s : str) (fuel1 fuel2 : nat) :
  (2 * List.length s + 1 <= fuel1)%nat ->
  (2 * List.length s + 1 <= fuel2)%nat ->
  scan_once fuel1 s = scan_once fuel2 s.
Proof.
  intros H1 H2.
  destruct (scan_once fuel1 s) as [r|] eqn:E1.
  - symmetry. now apply (proj1 (scan_adequate fuel1) s r fuel2).
  - destruct (scan_once fuel2 s) as [r|] eqn:E2; [|reflexivity].
    apply (proj1 (scan_adequate fuel2) s r fuel1) in E2; [congruence|lia].
Qed.

(** [loads] with more fuel is [loads]. *)
Lemma loads_fuel (s : str) (fuel : nat) :
  (scan_fuel s <= fuel)%nat ->
  loads s =
  match scan_once fuel (skip_ws s) with
  | None => None
  | Some (v, rest) =>
      match skip_ws rest with
      | [] => Some v
      | _ :: _ => None
      end
  end.
Proof.
  intros Hf. unfold loads. unfold scan_fuel in *.
  pose proof (skip_ws_length s).
  now rewrite (scan_once_fuel (skip_ws s) (2 * List.length s + 2) fuel)
    by lia.
Qed.

(** * Further properties *)

(** ** The escaping pass *)

Lemma escape_spec_app (a b : str) :
  escape_spec (a ++ b) = escape_spec a ++ escape_spec b.
Proof. unfold escape_spec. apply flat_map_app. Qed.

(** X1. Escaping a text in two pieces and putting the results together is
    escaping the whole text: no call of the chain looks across a
    character. *)
Theorem escaping_of_concatenation (a b : str) :
  escaped_message (a ++ b) = escaped_message a ++ escaped_message b.
Proof. rewrite !escaped_message_spec. apply escape_spec_app. Qed.

Lemma escape_spec_cons (c : char) (s : str) :
  escape_spec (c :: s) = escape_char_spec c ++ escape_spec s.
Proof. reflexivity. Qed.

Lemma escape_spec_plain (s : str) : plain_text s = true -> escape_spec s = s.
Proof.
  unfold plain_text.
  induction s as [|c s IH]; cbn [forallb]; [reflexivity|].
  rewrite andb_true_iff, negb_true_iff. intros [Hc Hs].
  rewrite escape_spec_cons. unfold escape_char_spec. rewrite Hc.
  cbn [app]. now rewrite IH.
Qed.

Lemma filter_special_nil (s : str) :
  filter is_special s = [] -> plain_text s = true.
Proof.
  unfold plain_text.
  induction s as [|c s IH]; cbn [filter forallb]; [reflexivity|].
  destruct (is_special c); [discriminate|]. intros H. now rewrite IH.
Qed.

Lemma escape_spec_fixed (s : str) :
  escape_spec s = s <-> plain_text s = true.
Proof.
  split; [|apply escape_spec_plain].
  intros H. apply filter_special_nil.
  pose proof (escape_spec_length s) as Hl. rewrite H in Hl.
  destruct (filter is_special s); [reflexivity|cbn in Hl; lia].
Qed.

Lemma plain_text_escape_spec (s : str) :
  plain_text (escape_spec s) = plain_text s.
Proof.
  unfold plain_text.
  induction s as [|c s IH]; [reflexivity|].
  rewrite escape_spec_cons, forallb_app, IH. cbn [forallb].
  unfold escape_char_spec. destruct (is_special c) eqn:E; cbn [forallb].
  - now rewrite E.
  - now rewrite E.
Qed.

(** X2. The escaping pass leaves a text as it is exactly when the text has
    none of the twelve characters; and escaping an escaped text again gives
    it back exactly in that case: for any other text the pass is not
    idempotent. *)
Theorem escaping_fixed_points (s : str) :
  (escaped_message s = s <-> plain_text s = true) /\
  (escaped_message (escaped_message s) = escaped_message s <->
   plain_text s = true).
Proof.
  rewrite !escaped_message_spec. split; [apply escape_spec_fixed|].
  rewrite escape_spec_fixed. now rewrite plain_text_escape_spec.
Qed.

Lemma escape_spec_head (s : str) :
  match escape_spec s with
  | [] => True
  | c :: _ => is_special c = false
  end.
Proof.
  destruct s as [|x s]; [exact I|].
  unfold escape_spec. cbn [flat_map]. unfold escape_char_spec.
  destruct (is_special x) eqn:E; cbn [app]; [reflexivity|exact E].
Qed.

Lemma unescape_escape_spec (s : str) : unescape_markdown (escape_spec s) = s.
Proof.
  induction s as [|x s IH]; [reflexivity|].
  change (escape_spec (x :: s)) with (escape_char_spec x ++ escape_spec s).
  unfold escape_char_spec. destruct (is_special x) eqn:E; cbn [app].
  - cbn [unescape_markdown N.eqb Pos.eqb backslash andb]. rewrite E.
    now rewrite IH.
  - pose proof (escape_spec_head s) as Hh.
    cbn [unescape_markdown].
    destruct (escape_spec s) as [|c2 r] eqn:Es.
    + destruct s as [|y s]; [reflexivity|].
      exfalso. unfold escape_spec in Es. cbn [flat_map] in Es.
      unfold escape_char_spec in Es. destruct (is_special y); discriminate.
    + rewrite Hh, andb_false_r. now rewrite IH.
Qed.

(** X3. Nothing is lost by the escaping pass: one function gives back
    every message from its escaped text (so two messages with the same
    escaped text are the same message). *)
Theorem escaping_can_be_undone :
  exists decode : str -> str,
    forall s, decode (escaped_message s) = s.
Proof.
  exists unescape_markdown. intros s.
  rewrite escaped_message_spec. apply unescape_escape_spec.
Qed.

Lemma escape_spec_guarded (s p q : str) (c : char) :
  escape_spec s = p ++ c :: q -> is_special c = true ->
  exists p', p = p' ++ [backslash].
Proof.
  revert p; induction s as [|x s IH]; intros p H Hc.
  - destruct p; discriminate.
  - change (escape_spec (x :: s)) with (escape_char_spec x ++ escape_spec s)
      in H.
    unfold escape_char_spec in H. destruct (is_special x) eqn:E; cbn [app] in H.
    + destruct p as [|a [|b p2]]; cbn [app] in H.
      * inversion H; subst. discriminate.
      * inversion H; subst. now exists [].
      * inversion H as [[Ha Hb H2]]. destruct (IH p2 H2 Hc) as [p' ->].
        now exists (backslash :: b :: p').
    + destruct p as [|a p2]; cbn [app] in H.
      * inversion H; subst. congruence.
      * inversion H as [[Ha H2]]. destruct (IH p2 H2 Hc) as [p' ->].
        now exists (a :: p').
Qed.

(** X4. In the escaped text no special character stands bare: wherever one
    of the twelve characters occurs, the character just before it is a
    backslash. *)
Theorem escaped_specials_are_guarded (s p q : str) (c : char) :
  escaped_message s = p ++ c :: q -> is_special c = true ->
  exists p', p = p' ++ [backslash].
Proof. rewrite escaped_message_spec. apply escape_spec_guarded. Qed.

Lemma escaped_specials_are_guarded_witness :
  exists p', lit "a\" = p' ++ [backslash].
Proof.
  exact (escaped_specials_are_guarded (lit "a*b") (lit "a\") (lit "b") 42
           eq_refl eq_refl).
Defined.

(** ** The renderer, case by case *)

Lemma skipn_length_app (A : Type) (l els : list A) :
  skipn (List.length l) (l ++ els) = els.
Proof. induction l as [|x l IH]; [reflexivity|exact IH]. Qed.

Lemma added_shown (m : M unit) (w : world) (r : result unit)
    (els : list element) :
  m w = (r, shown w els) -> added m w = els.
Proof.
  intros H. unfold added. rewrite H. cbn [snd shown page].
  apply skipn_length_app.
Qed.

Section RendererCases.

Variable printable : char -> bool.

Lemma show_response_cases (raw : str) (w : world) :
  show_response printable raw w =
  match raw with
  | [] => (Ok tt, shown w [error no_response_notice])
  | _ :: _ =>
      match loads raw with
      | None =>
          (Ok tt,
           shown w [error parse_error_notice;
                    write (lit "<pre>" ++ raw ++ lit "</pre>")])
      | Some parsed =>
          match extract_message printable parsed with
          | Raise e => (Raise e, shown w [])
          | Ok message =>
              match escape message with
              | Raise e =>
                  (Raise e, shown w [subheader (lit "Model Response:")])
              | Ok escaped =>
                  (Ok tt,
                   shown w [subheader (lit "Model Response:"); write escaped;
                            expander (lit "View Full Response"); json parsed])
              end
          end
      end
  end.
Proof.
  destruct raw as [|c raw]; [reflexivity|].
  destruct (loads (c :: raw)) as [parsed|] eqn:Hl.
  - rewrite (show_response_parsed printable (c :: raw) parsed w
               ltac:(discriminate) Hl).
    destruct (extract_message printable parsed); [reflexivity|].
    unfold shown. rewrite List.app_nil_r. now destruct w.
  - now apply show_response_malformed.
Qed.

(** The renderer touches the page only. *)
Lemma show_response_shown (raw : str) (w : world) :
  exists r els, show_response printable raw w = (r, shown w els).
Proof.
  rewrite show_response_cases.
  destruct raw; [eauto|]. destruct (loads _); [|eauto].
  destruct (extract_message printable _); [|eauto].
  destruct (escape _); eauto.
Qed.


End RendererCases.

(** X5. Which notice the renderer shows is decided by the string alone.
    For a string inside the limits of the interpreter (at most a hundred
    opening brackets and braces, no run of more than 4300 digits), the
    "no response" notice is shown exactly when the string is empty, and
    the parse error notice exactly when it is not empty and [json.loads]
    rejects it; what happens after a successful parse never brings either
    notice. *)
Theorem notices_follow_the_string
    (printable : char -> bool) (raw : str) (w : world) :
  modest_text raw = true ->
  (In (error no_response_notice) (added (show_response printable raw) w) <->
   raw = []) /\
  (In (error parse_error_notice) (added (show_response printable raw) w) <->
   raw <> [] /\ loads raw = None).
Proof.
  intros _.
  pose proof (show_response_cases printable raw w) as H.
  destruct raw as [|c raw].
  - rewrite (added_shown _ _ _ _ H). cbn [In]. split.
    + tauto.
    + split; [intros [E|[]]; discriminate E|intros [E _]; congruence].
  - destruct (loads (c :: raw)) as [parsed|].
    + destruct (extract_message printable parsed) as [message|e];
        [destruct (escape message)|];
        rewrite (added_shown _ _ _ _ H); cbn [In];
        (split; split; [intuition discriminate|discriminate
                       |intuition discriminate|intros [_ E]; discriminate E]).
    + rewrite (added_shown _ _ _ _ H). cbn [In]. split.
      * split; [intuition discriminate|discriminate].
      * split; [intros _; split; [discriminate|reflexivity]|auto].
Qed.

Lemma notices_follow_the_string_witness :
  (In (error no_response_notice)
      (added (show_response all_printable malformed_raw) empty_world) <->
   malformed_raw = []) /\
  (In (error parse_error_notice)
      (added (show_response all_printable malformed_raw) empty_world) <->
   malformed_raw <> [] /\ loads malformed_raw = None).
Proof.
  apply (notices_follow_the_string all_printable malformed_raw empty_world).
  vm_compute; reflexivity.
Defined.





(** ** The block under the button, case by case *)

Section ButtonCases.

Variable secrets : dict str.
Variable remote : str -> request -> result (dict value).
Variable printable : char -> bool.
Variable plans_data : dict str.

Let spinning (w : world) : world := shown w [spinner (lit "Analyzing plans...")].

Let asked (w : world) (req : request) : world :=
  {| opened := opened w; sent := sent w ++ [req];
     page := page w ++ [spinner (lit "Analyzing plans...")] |}.

Lemma run_jamba_query_no_key (question : str) (plan_names : list str)
    (w : world) :
  dict_get secrets (lit "AI21_API_KEY") = None ->
  run_jamba_query secrets remote plans_data question plan_names w =
  (Raise (KeyError (PyStr (lit "AI21_API_KEY"))), w).
Proof.
  intros Hk. unfold run_jamba_query, bind, lift, dict_getitem.
  now rewrite Hk.
Qed.

(** All that the block can do. *)
Lemma compare_plans_cases (button : bool) (question : str)
    (selected_plans : list str) (w : world) :
  compare_plans secrets remote printable plans_data button question
    selected_plans w =
  if button && (0 <? List.length selected_plans)%nat then
    match dict_get secrets (lit "AI21_API_KEY") with
    | None => (Raise (KeyError (PyStr (lit "AI21_API_KEY"))), spinning w)
    | Some api_key =>
        let req := request_for plans_data question selected_plans in
        match remote api_key req with
        | Raise e => (Raise e, asked w req)
        | Ok response =>
            let parsed := norm (PyDict response) in
            match extract_message printable parsed with
            | Raise e => (Raise e, asked w req)
            | Ok message =>
                match escape message with
                | Raise e =>
                    (Raise e,
                     shown (asked w req) [subheader (lit "Model Response:")])
                | Ok escaped =>
                    (Ok tt,
                     shown (asked w req)
                       [subheader (lit "Model Response:"); write escaped;
                        expander (lit "View Full Response"); json parsed;
                        success (lit "Comparison complete!")])
                end
            end
        end
    end
  else (Ok tt, w).
Proof.
  unfold compare_plans.
  destruct (button && (0 <? List.length selected_plans)%nat); [|reflexivity].
  unfold bind at 1. unfold st at 1. unfold bind at 1.
  destruct (dict_get secrets (lit "AI21_API_KEY")) as [api_key|] eqn:Hk.
  - rewrite (run_jamba_query_calls secrets remote plans_data question
               selected_plans api_key _ Hk).
    cbv zeta. cbn [opened sent page shown].
    fold (asked w (request_for plans_data question selected_plans)).
    destruct (remote api_key _) as [response|e]; [|reflexivity].
    unfold bind.
    rewrite (show_response_parsed printable _ _ _
               (dumps_nonempty (PyDict response))
               (loads_dumps (PyDict response))).
    destruct (extract_message printable _) as [message|e]; [|reflexivity].
    destruct (escape message) as [escaped|e]; [|reflexivity].
    unfold st. now rewrite shown_shown.
  - now rewrite run_jamba_query_no_key.
Qed.

End ButtonCases.

(** ** [json.loads] gives back what [json.dumps] was given *)

Lemma lor_high_low (y : N) :
  y < 1024 -> N.lor 55296 y = 55296 + y /\ N.lor 56320 y = 56320 + y.
Proof.
  intros Hy.
  pose proof (forall_below 1024
    (fun y => (N.lor 55296 y =? 55296 + y) && (N.lor 56320 y =? 56320 + y))
    ltac:(vm_compute; reflexivity) y Hy) as H.
  cbv beta in H. now rewrite andb_true_iff, !N.eqb_eq in H.
Qed.

Lemma land_shiftl_low (a b : N) : b < 1024 -> N.land (N.shiftl a 10) b = 0.
Proof.
  intros Hb. apply N.bits_inj_0. intros n. rewrite N.land_spec.
  destruct (N.lt_ge_cases n 10) as [Hn|Hn].
  - now rewrite N.shiftl_spec_low.
  - rewrite andb_false_iff. right.
    destruct (N.eq_dec b 0) as [->|H0]; [apply N.bits_0|].
    apply N.bits_above_log2.
    assert (N.log2 b < 10); [|lia].
    apply N.log2_lt_pow2; [lia|exact Hb].
Qed.

Lemma lor_shiftl_low (a b : N) :
  b < 1024 -> N.lor (N.shiftl a 10) b = a * 1024 + b.
Proof.
  intros Hb. pose proof (land_shiftl_low a b Hb) as H.
  rewrite <- N.lxor_lor, <- N.add_nocarry_lxor by exact H.
  now rewrite N.shiftl_mul_pow2.
Qed.

Lemma join_high_low (c : char) :
  65536 <= c -> c < 1114112 ->
  join_surrogates (high_of c) (low_of c) = c.
Proof.
  intros H1 H2. unfold join_surrogates, high_of, low_of.
  change 1023 with (N.ones 10). rewrite !N.land_ones, N.shiftr_div_pow2.
  change (2 ^ 10) with 1024.
  assert (Hq : (c - 65536) / 1024 < 1024)
    by (apply N.Div0.div_lt_upper_bound; lia).
  assert (Hr : (c - 65536) mod 1024 < 1024) by (apply N.mod_lt; discriminate).
  rewrite (N.mod_small _ _ Hq).
  destruct (lor_high_low _ Hq) as [-> _].
  destruct (lor_high_low _ Hr) as [_ ->].
  pose proof (N.div_mod (c - 65536) 1024 ltac:(discriminate)) as Hdm.
  remember ((c - 65536) / 1024) as q eqn:Eq.
  remember ((c - 65536) mod 1024) as r eqn:Er.
  clear Eq Er.
  rewrite (N.add_comm 55296 q), (N.add_comm 56320 r), !N.add_sub.
  rewrite lor_shiftl_low by exact Hr. lia.
Qed.

Lemma norm_str_scalar (s : str) : scalar_str s = true -> norm_str s = s.
Proof.
  unfold scalar_str.
  induction s as [|c s IH]; [reflexivity|]. cbn [forallb].
  rewrite andb_true_iff. intros [Hc Hs]. specialize (IH Hs).
  unfold is_scalar in Hc.
  rewrite orb_true_iff, andb_true_iff, N.ltb_lt, N.leb_le, N.ltb_lt in Hc.
  destruct (N.lt_ge_cases c 65536) as [Hlow|Hhigh].
  - rewrite norm_str_low; [now rewrite IH|exact Hlow|].
    destruct (is_high_surrogate c) eqn:E; [|reflexivity].
    apply high_surrogate_range in E. lia.
  - cbn [norm_str].
    replace (65536 <=? c) with true by (symmetry; apply N.leb_le; lia).
    rewrite join_high_low by lia. now rewrite IH.
Qed.

Lemma dict_set_fresh (V : Type) (acc : dict V) (k : str) (v : V)
    (rest : list str) :
  distinctb (map fst acc ++ k :: rest) = true ->
  dict_set acc k v = acc ++ [(k, v)].
Proof.
  induction acc as [|[k' v'] acc IH]; [reflexivity|].
  cbn [map fst app distinctb dict_set].
  rewrite andb_true_iff, negb_true_iff, existsb_app. cbn [existsb].
  rewrite !orb_false_iff. intros [(_ & Hk & _) Hd].
  rewrite Hk. f_equal. now apply IH.
Qed.

Lemma fold_dict_set_distinct (V : Type) (l acc : dict V) :
  distinctb (map fst (acc ++ l)) = true ->
  fold_left (fun d kv => dict_set d (fst kv) (snd kv)) l acc = acc ++ l.
Proof.
  revert acc; induction l as [|[k v] l IH]; intros acc Hd.
  - now rewrite List.app_nil_r.
  - cbn [fold_left fst snd].
    rewrite map_app in Hd. cbn [map fst] in Hd.
    rewrite (dict_set_fresh V acc k v (map fst l) Hd).
    rewrite IH; rewrite <- app_assoc; [reflexivity|].
    now rewrite map_app.
Qed.

Lemma dict_of_pairs_distinct (V : Type) (d : dict V) :
  distinctb (map fst d) = true -> dict_of_pairs d = d.
Proof. intros H. now apply (fold_dict_set_distinct V d []). Qed.

Lemma norm_well_formed (v : value) : well_formed v = true -> norm v = v.
Proof.
  induction v as [|b|z|f|s|l IH|d IH] using value_induction;
    try reflexivity.
  - cbn [well_formed norm]. intros H. now rewrite norm_str_scalar.
  - cbn [well_formed norm]. intros H. f_equal.
    induction IH as [|x l Hx _ IHl]; [reflexivity|].
    cbn [forallb map] in *. apply andb_true_iff in H as [H1 H2].
    now rewrite Hx, IHl.
  - cbn [well_formed norm]. rewrite andb_true_iff. intros [Hd H]. f_equal.
    replace (map (fun kv : list N * value =>
                    let (k, x) := kv in (norm_str k, norm x)) d) with d.
    + now apply dict_of_pairs_distinct.
    + clear Hd. induction IH as [|[k x] d Hx _ IHd]; [reflexivity|].
      cbn [forallb map snd] in *.
      apply andb_true_iff in H as [H1 H2].
      apply andb_true_iff in H1 as [Hk Hv].
      now rewrite norm_str_scalar, Hx, <- IHd.
Qed.

(** X8. What [run_jamba_query] dumps (line 69) the renderer parses back
    (line 119) unchanged: for every value whose strings hold Unicode scalar
    values, whose mappings have distinct keys, and which stays inside the
    limits of the interpreter (containers nested at most a hundred deep,
    integers of at most 4300 digits), [json.loads] of [json.dumps] of the
    value is the value. *)
Theorem loads_after_dumps (v : value) :
  well_formed v = true ->
  modest_value v = true ->
  loads (dumps v) = Some v.
Proof. intros H _. rewrite loads_dumps. now rewrite norm_well_formed. Qed.

Lemma loads_after_dumps_witness :
  loads (dumps (PyDict demo_response)) = Some (PyDict demo_response).
Proof.
  apply (loads_after_dumps (PyDict demo_response)).
  - reflexivity.
  - vm_compute; reflexivity.
Defined.

(** ** What the block under the button does and does not do *)

Lemma added_page (m : M unit) (w : world) (els : list element) :
  page (snd (m w)) = page w ++ els -> added m w = els.
Proof. intros H. unfold added. rewrite H. apply skipn_length_app. Qed.

Lemma nonempty_selection (button : bool) (selected_plans : list str) :
  button && (0 <? List.length selected_plans)%nat = true <->
  button = true /\ selected_plans <> [].
Proof.
  rewrite andb_true_iff. destruct selected_plans; cbn; intuition congruence.
Qed.

(** X9. When the secrets hold no [AI21_API_KEY] the query stops at the
    look-up of line 44: the exception of that look-up, whichever it is, is
    raised before any prompt is built, no request is sent and no file is
    opened, and the block under the button ends with the same exception
    and the spinner as the only element added. *)
Theorem missing_key_stops_the_query
    (secrets : dict str) (remote : str -> request -> result (dict value))
    (printable : char -> bool) (plans_data : dict str)
    (question : str) (selected_plans : list str) (w : world) :
  dict_get secrets (lit "AI21_API_KEY") = None ->
  selected_plans <> [] ->
  exists e : exn,
    run_jamba_query secrets remote plans_data question selected_plans w =
      (Raise e, w) /\
    compare_plans secrets remote printable plans_data true question
      selected_plans w =
      (Raise e, shown w [spinner (lit "Analyzing plans...")]).
Proof.
  intros Hk Hne. exists (KeyError (PyStr (lit "AI21_API_KEY"))).
  split; [now apply run_jamba_query_no_key|].
  rewrite compare_plans_cases, Hk.
  now rewrite (proj2 (nonempty_selection true selected_plans)).
Qed.

Lemma missing_key_stops_the_query_witness :
  exists e : exn,
    run_jamba_query other_secrets demo_remote demo_plans (lit "Compare.")
      [lit "Plan A"] empty_world = (Raise e, empty_world) /\
    compare_plans other_secrets demo_remote all_printable demo_plans true
      (lit "Compare.") [lit "Plan A"] empty_world =
      (Raise e, shown empty_world [spinner (lit "Analyzing plans...")]).
Proof.
  apply (missing_key_stops_the_query other_secrets demo_remote all_printable
           demo_plans (lit "Compare.") [lit "Plan A"] empty_world).
  - reflexivity.
  - discriminate.
Defined.

(** X10. One press of the button sends one request at most, the request
    for the question and the selection, and opens no file, whatever the
    secrets, the store, the answer of the model and the outcome. *)
Theorem one_request_at_most
    (secrets : dict str) (remote : str -> request -> result (dict value))
    (printable : char -> bool) (plans_data : dict str) (button : bool)
    (question : str) (selected_plans : list str) (w : world) :
  let w' :=
    snd (compare_plans secrets remote printable plans_data button question
           selected_plans w) in
  opened w' = opened w /\
  (sent w' = sent w \/
   sent w' = sent w ++ [request_for plans_data question selected_plans]).
Proof.
  cbv zeta. rewrite compare_plans_cases.
  destruct (button && (0 <? List.length selected_plans)%nat); [|now auto].
  destruct (dict_get secrets (lit "AI21_API_KEY")) as [api_key|];
    [|now auto].
  cbv zeta. destruct (remote api_key _) as [response|e]; [|now auto].
  destruct (extract_message printable _) as [message|e]; [|now auto].
  destruct (escape message); now auto.
Qed.

(** X11. When the model answers with a response whose first choice has a
    string under [messages], and the response stays inside the limits of
    the interpreter (containers nested at most a hundred deep, integers of
    at most 4300 digits), the page gets, in this order, the spinner, the
    subheader, the escaped text of that string, the expander with the
    response itself, and the notice that the comparison is complete; one
    request was sent. *)
Theorem answered_comparison
    (secrets : dict str) (remote : str -> request -> result (dict value))
    (printable : char -> bool) (plans_data : dict str)
    (question : str) (selected_plans : list str) (api_key : str)
    (response entry : dict value) (rest : list value) (text : str)
    (w : world) :
  selected_plans <> [] ->
  dict_get secrets (lit "AI21_API_KEY") = Some api_key ->
  remote api_key (request_for plans_data question selected_plans) =
    Ok response ->
  well_formed (PyDict response) = true ->
  modest_value (PyDict response) = true ->
  dict_get response (lit "choices") = Some (PyList (PyDict entry :: rest)) ->
  dict_get entry (lit "messages") = Some (PyStr text) ->
  compare_plans secrets remote printable plans_data true question
    selected_plans w =
  (Ok tt,
   {| opened := opened w;
      sent := sent w ++ [request_for plans_data question selected_plans];
      page := page w ++
        [spinner (lit "Analyzing plans...");
         subheader (lit "Model Response:");
         write (escaped_message text);
         expander (lit "View Full Response");
         json (PyDict response);
         success (lit "Comparison complete!")] |}).
Proof.
  intros Hne Hk Hr Hw _ Hc Hm.
  rewrite compare_plans_cases, Hk.
  rewrite (proj2 (nonempty_selection true selected_plans)) by auto.
  cbv zeta. rewrite Hr, (norm_well_formed _ Hw).
  assert (Hx : extract_message printable (PyDict response) =
               Ok (PyStr text)).
  { unfold extract_message, py_in, py_getitem, dict_getitem, dict_contains.
    rewrite Hc. cbn [py_len List.length Nat.ltb Nat.leb py_getitem0].
    now rewrite Hm. }
  rewrite Hx. cbn [escape]. unfold shown. cbn [opened sent page].
  now rewrite <- app_assoc.
Qed.

Lemma answered_comparison_witness :
  compare_plans demo_secrets demo_remote all_printable demo_plans true
    (lit "Compare.") [lit "Plan A"] empty_world =
  (Ok tt,
   {| opened := [];
      sent := [request_for demo_plans (lit "Compare.") [lit "Plan A"]];
      page :=
        [spinner (lit "Analyzing plans...");
         subheader (lit "Model Response:");
         write (lit "Plan A has a \$500 deductible\.");
         expander (lit "View Full Response");
         json (PyDict demo_response);
         success (lit "Comparison complete!")] |}).
Proof.
  apply (answered_comparison demo_secrets demo_remote all_printable
           demo_plans (lit "Compare.") [lit "Plan A"] (lit "secret")
           demo_response
           [(lit "messages", PyStr (lit "Plan A has a $500 deductible."))]
           [] (lit "Plan A has a $500 deductible.") empty_world).
  - discriminate.
  - reflexivity.
  - reflexivity.
  - reflexivity.
  - vm_compute; reflexivity.
  - reflexivity.
  - reflexivity.
Defined.

(** X12. The notice that the comparison is complete is on the page exactly
    when the button was pressed, a plan was selected and the block ran to
    its end without an exception: no failure is followed by it. *)
Theorem success_means_no_exception
    (secrets : dict str) (remote : str -> request -> result (dict value))
    (printable : char -> bool) (plans_data : dict str) (button : bool)
    (question : str) (selected_plans : list str) (w : world) :
  In (success (lit "Comparison complete!"))
    (added (compare_plans secrets remote printable plans_data button
              question selected_plans) w) <->
  button = true /\ selected_plans <> [] /\
  fst (compare_plans secrets remote printable plans_data button question
         selected_plans w) = Ok tt.
Proof.
  pose proof (compare_plans_cases secrets remote printable plans_data button
                question selected_plans w) as H.
  pose proof (nonempty_selection button selected_plans) as Hb.
  destruct (button && (0 <? List.length selected_plans)%nat).
  2:{ rewrite (added_page _ _ [])
        by (rewrite H; cbn [snd]; now rewrite List.app_nil_r).
      cbn [In]. split; [tauto|].
      intros (B & S & _). destruct Hb as [_ Hb]. now specialize (Hb (conj B S)). }
  destruct Hb as [Hb _]. specialize (Hb eq_refl). cbv zeta in H.
  destruct (dict_get secrets (lit "AI21_API_KEY")) as [api_key|];
    [destruct (remote api_key _) as [response|e];
       [destruct (extract_message printable _) as [message|e];
          [destruct (escape message)|]|]|];
    rewrite H; cbn [fst];
    match goal with
    | |- context [added _ _] =>
        erewrite added_page
          by (rewrite H; cbn [snd shown page]; rewrite <- ?app_assoc;
              reflexivity)
    end; cbn [In app]; intuition discriminate.
Qed.

(** X13. The guard of the block is the only gate: something is added to
    the page exactly when the button was pressed with a plan selected, and
    the spinner then comes first. *)
Theorem block_runs_iff_guard
    (secrets : dict str) (remote : str -> request -> result (dict value))
    (printable : char -> bool) (plans_data : dict str) (button : bool)
    (question : str) (selected_plans : list str) (w : world) :
  (added (compare_plans secrets remote printable plans_data button question
            selected_plans) w <> [] <->
   button = true /\ selected_plans <> []) /\
  (button = true -> selected_plans <> [] ->
   exists more,
     added (compare_plans secrets remote printable plans_data button
              question selected_plans) w =
     spinner (lit "Analyzing plans...") :: more).
Proof.
  pose proof (compare_plans_cases secrets remote printable plans_data button
                question selected_plans w) as H.
  pose proof (nonempty_selection button selected_plans) as Hb.
  destruct (button && (0 <? List.length selected_plans)%nat).
  2:{ rewrite (added_page _ _ [])
        by (rewrite H; cbn [snd]; now rewrite List.app_nil_r).
      split; [split; [congruence|]|].
      - intros BS. destruct Hb as [_ Hb]. now specialize (Hb BS).
      - intros B S. destruct Hb as [_ Hb]. now specialize (Hb (conj B S)). }
  destruct Hb as [Hb _]. specialize (Hb eq_refl). cbv zeta in H.
  assert (E : exists more,
             added (compare_plans secrets remote printable plans_data button
                      question selected_plans) w =
             spinner (lit "Analyzing plans...") :: more).
  { destruct (dict_get secrets (lit "AI21_API_KEY")) as [api_key|];
      [destruct (remote api_key _) as [response|e];
         [destruct (extract_message printable _) as [message|e];
            [destruct (escape message)|]|]|];
      eexists;
      apply added_page; rewrite H; cbn [snd shown page];
      rewrite <- ?app_assoc; reflexivity. }
  destruct E as [more E]. rewrite E.
  split; [split; [auto|discriminate]|eauto].
Qed.

(** ** The names offered and the names selected *)

Lemma dict_contains_keys (V : Type) (d : dict V) (k : str) :
  In k (dict_keys d) -> dict_contains d k = true.
Proof.
  unfold dict_contains, dict_keys.
  induction d as [|[k' v] d IH]; cbn [map fst In dict_get]; [tauto|].
  intros [->|Hin].
  - now rewrite str_eqb_refl.
  - destruct (str_eqb k' k); [reflexivity|now apply IH].
Qed.

(** X14. The names offered for selection are the keys of the store, so a
    selection made among them loses no name: every selected name is known
    and the comprehension keeps them all, each with the text of the
    store. *)
Theorem offered_names_are_kept (plans_data : dict str) (plan_names : list str) :
  incl plan_names (get_insurance_plans plans_data) ->
  filter (dict_contains plans_data) plan_names = plan_names /\
  select_plans plans_data plan_names [] =
    Ok (map (fun n => (n, plan_text plans_data n)) (distinct plan_names)).
Proof.
  intros Hin.
  assert (E : filter (dict_contains plans_data) plan_names = plan_names).
  { apply filter_known_all. apply Forall_forall. intros n Hn.
    apply dict_contains_keys. now apply Hin. }
  split; [exact E|]. now rewrite select_plans_total, E.
Qed.

Lemma offered_names_are_kept_witness :
  filter (dict_contains demo_plans) [lit "Plan B"; lit "Plan A"] =
    [lit "Plan B"; lit "Plan A"] /\
  select_plans demo_plans [lit "Plan B"; lit "Plan A"] [] =
    Ok (map (fun n => (n, plan_text demo_plans n))
          (distinct [lit "Plan B"; lit "Plan A"])).
Proof.
  apply (offered_names_are_kept demo_plans [lit "Plan B"; lit "Plan A"]).
  intros n [<-|[<-|[]]]; cbn; auto.
Defined.

(** ** The plan store, again *)



(** X15. After a successful load, looking a plan up by its name gives the
    text of its file: no name hides another, the store has the five names
    in the order of the list, and these are the names offered for
    selection. *)
Theorem loaded_texts_by_name
    (read_text : str -> option str) (contents : str -> str) (w : world) :
  (forall f, In f filenames ->
             read_text (path_join data_folder f) = Some (contents f)) ->
  exists plans w',
    load_data read_text w = (Ok plans, w') /\
    (forall f, In f filenames ->
               dict_get plans (fst (splitext f)) = Some (contents f)) /\
    get_insurance_plans plans =
      [ lit "HMO Blue Copayment";
        lit "HMO Blue New England Basic Saver";
        lit "HMO Blue Saver";
        lit "HMO Blue Select $2000 Deductible with Copayment";
        lit "Preferred Blue PPO $4500 Deductible" ] /\
    NoDup (get_insurance_plans plans).
Proof.
  intros Hr. eexists _, _. split; [|split; [|split]].
  - unfold load_data. apply (load_files_ok read_text contents filenames Hr).
  - intros f Hf. cbn [filenames In] in Hf.
    repeat (destruct Hf as [<-|Hf]; [vm_compute; reflexivity|]).
    contradiction.
  - vm_compute. reflexivity.
  - apply distinctb_NoDup. vm_compute. reflexivity.
Qed.

Lemma loaded_texts_by_name_witness :
  exists plans w',
    load_data demo_disk empty_world = (Ok plans, w') /\
    (forall f, In f filenames ->
               dict_get plans (fst (splitext f)) =
               Some (lit "text of " ++ path_join data_folder f)) /\
    get_insurance_plans plans =
      [ lit "HMO Blue Copayment";
        lit "HMO Blue New England Basic Saver";
        lit "HMO Blue Saver";
        lit "HMO Blue Select $2000 Deductible with Copayment";
        lit "Preferred Blue PPO $4500 Deductible" ] /\
    NoDup (get_insurance_plans plans).
Proof.
  apply (loaded_texts_by_name demo_disk
           (fun f => lit "text of " ++ path_join data_folder f) empty_world).
  intros f Hf. cbn [filenames In] in Hf.
  repeat (destruct Hf as [<-|Hf]; [vm_compute; reflexivity|]).
  contradiction.
Defined.


(** ** The name of a plan *)

Lemma rfind_from_spec (c : char) (s : str) :
  forall (i last : Z),
    rfind_from c s i last = last /\ ~ In c s \/
    exists a b,
      s = a ++ c :: b /\
      rfind_from c s i last = (i + Z.of_nat (List.length a))%Z.
Proof.
  induction s as [|x s IH]; intros i last; [left; cbn; tauto|].
  cbn [rfind_from].
  destruct (IH (i + 1)%Z (if x =? c then i else last))
    as [[E Hn]|(a & b & -> & E)].
  - rewrite E. destruct (N.eqb_spec x c) as [->|Hx].
    + right. exists [], s. split; [reflexivity|cbn; lia].
    + left. split; [reflexivity|]. intros [H|H]; [congruence|contradiction].
  - right. exists (x :: a), b. split; [reflexivity|].
    rewrite E. cbn [List.length]. lia.
Qed.

Lemma rfind_range (c : char) (s : str) : (-1 <= rfind c s)%Z.
Proof.
  unfold rfind.
  destruct (rfind_from_spec c s 0 (-1)) as [[E _]|(a & b & _ & E)];
    rewrite E; lia.
Qed.

(** X17. The name of a plan is its file name cut at the extension: for
    every file name, the name and the extension put together are the file
    name; the extension is empty or starts with a dot; and a file name
    without a dot is its own plan name. *)
Theorem plan_name_and_extension (filename : str) :
  fst (splitext filename) ++ snd (splitext filename) = filename /\
  (snd (splitext filename) = [] \/
   exists r, snd (splitext filename) = 46 :: r) /\
  (~ In 46 filename -> splitext filename = (filename, [])).
Proof.
  unfold splitext.
  pose proof (rfind_range 47 filename) as Hsep.
  destruct (rfind_from_spec 46 filename 0 (-1)) as [[E Hn]|(a & b & Ef & E)];
    fold (rfind 46 filename) in E; rewrite E.
  - replace (rfind 47 filename <? -1)%Z with false
      by (symmetry; apply Z.ltb_ge; lia).
    cbn [fst snd]. rewrite List.app_nil_r. auto.
  - destruct (rfind 47 filename <? 0 + Z.of_nat (List.length a))%Z;
      [destruct (existsb _ _)|]; cbn [fst snd];
      try (rewrite List.app_nil_r; split; [reflexivity|]; split; [now left|];
           intros Hn; reflexivity).
    rewrite firstn_skipn. split; [reflexivity|]. split.
    + right. exists b. rewrite Ef.
      replace (Z.to_nat (0 + Z.of_nat (List.length a))) with (List.length a)
        by lia.
      apply skipn_length_app.
    + intros Hn. exfalso. apply Hn. rewrite Ef. apply in_or_app.
      right. now left.
Qed.

(** ** The selected plans as a part of the store *)

Lemma existsb_str_eqb_in (seen : list str) (name : str) :
  existsb (fun k => str_eqb k name) seen = true <-> In name seen.
Proof.
  rewrite existsb_exists. split.
  - intros (k & Hk & E). apply str_eqb_eq in E. now subst.
  - intros H. exists name. split; [exact H|apply str_eqb_refl].
Qed.

Lemma add_name_in (seen : list str) (name n : str) :
  In n (add_name seen name) <-> In n seen \/ n = name.
Proof.
  unfold add_name.
  destruct (existsb (fun k => str_eqb k name) seen) eqn:E.
  - apply existsb_str_eqb_in in E. split; [auto|].
    intros [H| ->]; assumption.
  - rewrite in_app_iff. cbn [In]. intuition.
Qed.

Lemma add_name_NoDup (seen : list str) (name : str) :
  NoDup seen -> NoDup (add_name seen name).
Proof.
  intros Hd. unfold add_name.
  destruct (existsb (fun k => str_eqb k name) seen) eqn:E; [exact Hd|].
  assert (Hn : ~ In name seen).
  { intros H. apply existsb_str_eqb_in in H. congruence. }
  clear E. induction Hd as [|x l Hx Hl IH]; cbn [app].
  - constructor; [intros []|constructor].
  - constructor.
    + rewrite in_app_iff. cbn [In]. intros [H|[H|[]]]; [tauto|].
      subst. apply Hn. now left.
    + apply IH. intros H. apply Hn. now right.
Qed.

Lemma fold_add_name_in (names seen : list str) (n : str) :
  In n (fold_left add_name names seen) <-> In n seen \/ In n names.
Proof.
  revert seen; induction names as [|k names IH]; intros seen; cbn [fold_left In].
  - tauto.
  - rewrite IH, add_name_in. intuition.
Qed.

Lemma fold_add_name_distinct (names seen : list str) :
  NoDup seen -> NoDup (fold_left add_name names seen).
Proof.
  revert seen; induction names as [|k names IH]; intros seen Hd;
    [exact Hd|].
  cbn [fold_left]. apply IH. now apply add_name_NoDup.
Qed.

(** X18. The mapping of the selected plans is a part of the store: it has
    no name twice, each of its items is a selected name with the text the
    store holds for it, and it has every selected name that the store
    knows. *)
Theorem selection_is_part_of_store
    (plans_data : dict str) (plan_names : list str) :
  exists selected,
    select_plans plans_data plan_names [] = Ok selected /\
    NoDup (dict_keys selected) /\
    (forall name text, In (name, text) selected ->
       In name plan_names /\ dict_get plans_data name = Some text) /\
    (forall name, In name plan_names ->
       dict_contains plans_data name = true ->
       In name (dict_keys selected)).
Proof.
  eexists. split; [apply select_plans_total|].
  assert (K : forall l : list str,
            dict_keys (map (fun n => (n, plan_text plans_data n)) l) = l).
  { intros l. unfold dict_keys. rewrite map_map. cbn [fst]. apply map_id. }
  split; [|split].
  - rewrite K. apply fold_add_name_distinct. constructor.
  - intros name text Hin. apply in_map_iff in Hin.
    destruct Hin as (n & E & Hn). inversion E; subst.
    apply fold_add_name_in in Hn. destruct Hn as [[]|Hn].
    apply filter_In in Hn. destruct Hn as [Hn Hk]. split; [exact Hn|].
    unfold dict_contains, plan_text in *.
    now destruct (dict_get plans_data name).
  - intros name Hn Hk. rewrite K. apply fold_add_name_in. right.
    apply filter_In. now split.
Qed.

(** ** A response without a first choice *)

(** X19. For a response that is an object without [choices], or with an
    empty list of them, that holds no float and whose text stays inside the
    limits of the interpreter (at most a hundred opening brackets and
    braces, no run of more than 4300 digits), the renderer raises nothing
    and writes the escaped string form of the whole object,
    [{'choices': []}] escaped for one. *)
Theorem whole_response_shown
    (printable : char -> bool) (raw : str) (d : dict value) (w : world) :
  raw <> [] ->
  modest_text raw = true ->
  loads raw = Some (PyDict d) ->
  float_free (PyDict d) = true ->
  dict_get d (lit "choices") = None \/
  dict_get d (lit "choices") = Some (PyList []) ->
  show_response printable raw w =
  (Ok tt,
   shown w [subheader (lit "Model Response:");
            write (escaped_message (repr printable (PyDict d)));
            expander (lit "View Full Response"); json (PyDict d)]).
Proof.
  intros Hne _ Hl _ Hc.
  rewrite (show_response_parsed printable raw (PyDict d) w Hne Hl).
  assert (Hx : extract_message printable (PyDict d) =
               Ok (PyStr (repr printable (PyDict d)))).
  { unfold extract_message, py_in, py_getitem, dict_getitem, dict_contains.
    destruct Hc as [-> | ->]; reflexivity. }
  now rewrite Hx.
Qed.

Lemma whole_response_shown_witness :
  show_response all_printable empty_choices_raw empty_world =
  (Ok tt,
   shown empty_world
     [subheader (lit "Model Response:");
      write (lit "{'choices': \[\]}");
      expander (lit "View Full Response");
      json (PyDict [(lit "choices", PyList [])])]).
Proof.
  apply (whole_response_shown all_printable empty_choices_raw
           [(lit "choices", PyList [])] empty_world).
  - discriminate.
  - vm_compute; reflexivity.
  - vm_compute; reflexivity.
  - reflexivity.
  - now right.
Defined.
